(** * Session and download orchestration of the playwright download API

    A shallow embedding of the latest variant of the service
    ([src/unnamed/part_001]): startup, the login sequencer, the HTTP
    handlers, the download pipeline and the naming of uploaded objects;
    and of the startup check and the download pipeline of the
    temporary-file variant ([src/unnamed/part_000]).

    - Go strings are byte strings: [string], a list of [ascii] bytes.
    - A Go [error] is its message.  A function that returns an error is a
      computation that can [Raise]; panics and [log.Fatalf] are outcomes of
      their own.
    - The package-level variables, the process environment and the local
      files make up the [World]; the browser, the object store and the
      rest of the operating system are the [Outside], a state machine
      that answers every call.  The world records the calls and their
      answers, the lock operations and the file operations in its [trace].
    - Log lines are not modelled; the messages of [log.Fatalf] are given
      without their pictograph.  A handler sees a request as its method
      and the result of decoding its body.  A goroutine a handler starts
      is recorded in the trace ([EGo]), not run.
    - Concurrency is modelled apart, on traces: goroutines are event
      lists, interleaved as [sync.RWMutex] admits. *)

From Stdlib Require Import Ascii String List Arith NArith Lia Bool.
From stdpp Require Import base option strings gmap.
Import ListNotations.



(** ** Byte-string library functions used by the service *)

Module GoStrings.

(** [os.IsPathSeparator] on Unix. *)
Definition IsPathSeparator (c : ascii) : bool := Ascii.eqb c "/"%char.

Fixpoint containsByte (p : ascii -> bool) (s : string) : bool :=
  match s with
  | EmptyString => false
  | String a s' => p a || containsByte p s'
  end.

(** Removes the longest suffix made of bytes satisfying [p]. *)
Fixpoint trimRightBytes (p : ascii -> bool) (s : string) : string :=
  match s with
  | EmptyString => EmptyString
  | String a s' =>
      match trimRightBytes p s' with
      | EmptyString => if p a then EmptyString else String a EmptyString
      | t => String a t
      end
  end.

(** [strings.TrimRight s cutset]. *)
Definition TrimRight (s cutset : string) : string :=
  trimRightBytes (fun c => containsByte (Ascii.eqb c) cutset) s.

(** The part of [s] after its last path separator (all of [s] when it
    has none). *)
Fixpoint lastElement (s : string) : string :=
  match s with
  | EmptyString => EmptyString
  | String a s' =>
      if containsByte IsPathSeparator s' then lastElement s'
      else if IsPathSeparator a then s' else String a s'
  end.

(** [filepath.Base] on Unix (no volume names). *)
Definition Base (path : string) : string :=
  match path with
  | EmptyString => "."
  | _ =>
      match lastElement (trimRightBytes IsPathSeparator path) with
      | EmptyString => "/"
      | e => e
      end
  end.

(** [filepath.Ext]: the suffix starting at the last dot of the last
    path element, empty when there is none. *)
Fixpoint Ext (path : string) : string :=
  match path with
  | EmptyString => EmptyString
  | String a s' =>
      match Ext s' with
      | EmptyString =>
          if Ascii.eqb a "."%char && negb (containsByte IsPathSeparator s')
          then String a s' else EmptyString
      | e => e
      end
  end.

(** [strings.Split s sep] for a one-byte separator: always at least
    one element. *)
Fixpoint Split (s : string) (sep : ascii) : list string :=
  match s with
  | EmptyString => [EmptyString]
  | String a s' =>
      if Ascii.eqb a sep then EmptyString :: Split s' sep
      else match Split s' sep with
           | h :: t => String a h :: t
           | [] => [String a EmptyString]
           end
  end.

(** [strings.Join elems sep]. *)
Fixpoint Join (elems : list string) (sep : string) : string :=
  match elems with
  | [] => EmptyString
  | [e] => e
  | e :: rest => e +:+ sep +:+ Join rest sep
  end.

Definition isAlnum (c : ascii) : bool :=
  let n := nat_of_ascii c in
  ((97 <=? n)%nat && (n <=? 122)%nat) || ((65 <=? n)%nat && (n <=? 90)%nat)
  || ((48 <=? n)%nat && (n <=? 57)%nat).

(** [shouldEscape c encodeQueryComponent] of net/url. *)
Definition shouldEscape (c : ascii) : bool :=
  if isAlnum c then false
  else if containsByte (Ascii.eqb c) "-_.~" then false
  else true.

Definition upperhex (n : nat) : ascii :=
  match get n "0123456789ABCDEF" with
  | Some c => c
  | None => "0"%char
  end.

(** [url.QueryEscape]. *)
Fixpoint QueryEscape (s : string) : string :=
  match s with
  | EmptyString => EmptyString
  | String c s' =>
      if shouldEscape c then
        if Ascii.eqb c " "%char then String "+"%char (QueryEscape s')
        else String "%"%char
               (String (upperhex (nat_of_ascii c / 16))
                  (String (upperhex (nat_of_ascii c mod 16)) (QueryEscape s')))
      else String c (QueryEscape s')
  end.

(** [filepath.Clean] on Unix, element by element: empty and dot
    elements vanish, a dot-dot element cancels the element before it
    (or is dropped at the root, or kept in front of a relative path). *)
Fixpoint cleanElems (rooted : bool) (stack : list string) (elems : list string)
  : list string :=
  match elems with
  | [] => rev stack
  | e :: rest =>
      if String.eqb e "" || String.eqb e "." then cleanElems rooted stack rest
      else if String.eqb e ".." then
        match stack with
        | top :: below =>
            if String.eqb top ".." then cleanElems rooted (e :: stack) rest
            else cleanElems rooted below rest
        | [] =>
            if rooted then cleanElems rooted [] rest
            else cleanElems rooted [e] rest
        end
      else cleanElems rooted (e :: stack) rest
  end.

Definition Clean (path : string) : string :=
  let rooted := match path with
                | String a _ => IsPathSeparator a
                | EmptyString => false
                end in
  let body := Join (cleanElems rooted [] (Split path "/"%char)) "/" in
  match (if rooted then "/" +:+ body else body) with
  | EmptyString => "."
  | p => p
  end.

(** [filepath.Join] of two elements: empty elements are ignored and
    the result is cleaned. *)
Definition PathJoin (a b : string) : string :=
  match a, b with
  | EmptyString, EmptyString => EmptyString
  | EmptyString, _ => Clean b
  | _, EmptyString => Clean a
  | _, _ => Clean (a +:+ "/" +:+ b)
  end.

End GoStrings.

Import GoStrings.

(** ** Collaborators outside the repository *)

(** [url.Parse] of the Go library, reduced to what the service reads from
    its result: the [Path] field, or [None] when parsing fails. *)
Class NetURL := url_Parse_Path : string -> option string.

(** The process environment, [os.Getenv]: unset variables read as the
    empty string. *)
Definition Environ := string -> string.

Definition getEnv (environ : Environ) (key defaultValue : string) : string :=
  match environ key with
  | EmptyString => defaultValue
  | value => value
  end.

(** [generateR2Path]: the public location and the object key.  [url.Parse]
    returns a nil URL on a parse error, whose [Path] the function then
    dereferences: that run panics, result [None]. *)
Definition generateR2Path `{NetURL} (environ : Environ)
    (originalURL email : string) : option (string * string) :=
  match url_Parse_Path originalURL with
  | None => None
  | Some path =>
      let baseName := Base path in
      let ext := Ext baseName in
      let nameWithoutExt :=
        substring 0 (String.length baseName - String.length ext) baseName in
      let parts := Split nameWithoutExt "_"%char in
      let nameWithoutExt :=
        if (1 <? length parts)%nat then Join (removelast parts) "_" else nameWithoutExt in
      let finalFilename := nameWithoutExt +:+ ".jpg" in
      let encodedEmail := QueryEscape email in
      let r2Base := getEnv environ "R2_URL" "https://storage.stokbro.net" in
      let fullURL :=
        TrimRight r2Base "/" +:+ "/" +:+ encodedEmail +:+ "/" +:+ finalFilename in
      let objectKey := encodedEmail +:+ "/" +:+ finalFilename in
      Some (fullURL, objectKey)
  end.

(** A stand-in parser for examples: the path of a plain absolute URL
    [scheme://host/path] without query, fragment or escapes. *)
Fixpoint afterAuthority (s : string) : string :=
  match s with
  | EmptyString => EmptyString
  | String a s' => if Ascii.eqb a "/"%char then s else afterAuthority s'
  end.

Fixpoint plainURLPath (s : string) : option string :=
  match s with
  | String ":" (String "/" (String "/" rest)) => Some (afterAuthority rest)
  | String a s' =>
      if isAlnum a then plainURLPath s' else None
  | EmptyString => None
  end.


(** ** Outcomes *)

(** What a library call hands back: a value, or a Go [error]. *)
Inductive answer (A : Type) : Type :=
| Done (a : A)
| Failed (err : string).
Arguments Done {A} a.
Arguments Failed {A} err.

(** How a function of the service ends: it returns a value, returns an
    error, panics (deferred calls still run), or the process exits through
    [log.Fatalf] (deferred calls do not run). *)
Inductive res (A : Type) : Type :=
| Val (a : A)
| Raise (err : string)
| Panic (msg : string)
| Exit (msg : string).
Arguments Val {A} a.
Arguments Raise {A} err.
Arguments Panic {A} msg.
Arguments Exit {A} msg.

(** ** The browser, the object store and the operating system *)

(** Browsers, contexts, pages and downloads are handles into the browser
    process. *)
Definition handle := nat.

Record LaunchOptions := {
  Headless : bool;
  Args : list string
}.

Record ContextOptions := {
  StorageStatePath : option string;
  UserAgent : option string;
  Viewport : option (nat * nat);
  Locale : option string;
  TimezoneId : option string;
  ExtraHttpHeaders : list (string * string)
}.

(** The calls the service makes on its collaborators, indexed by the type
    of what they hand back.  Timeouts are in milliseconds.  [IsVisible]
    hands back [false] when the query itself fails (the service drops
    that error at every call site). *)
Inductive call : Type -> Type :=
| Playwright_Run : call (answer unit)
| Chromium_Launch (o : LaunchOptions) : call (answer handle)
| NewContext (browser : handle) (o : ContextOptions) : call (answer handle)
| NewPage (context : handle) : call (answer handle)
| Page_Close (page : handle) : call unit
| AddInitScript (page : handle) (content : string) : call (answer unit)
| Goto (page : handle) (url : string) (timeout : N) : call (answer unit)
| Click (page : handle) (selector : string) (timeout : N) : call (answer unit)
| Fill (page : handle) (selector value : string) (timeout : N) : call (answer unit)
| Check (page : handle) (selector : string) (timeout : N) : call (answer unit)
| IsVisible (page : handle) (selector : string) : call bool
| Page_URL (page : handle) : call string
| Title (page : handle) : call (answer string)
| ExpectDownload (page : handle) (selector : string) (timeout : N)
    : call (answer handle)
| SuggestedFilename (download : handle) : call string
| SaveAs (download : handle) (path : string) : call (answer string)
| StorageState (context : handle) (path : string) : call (answer string)
| MkdirAll (path : string) : call (answer unit)
| CreateTemp (dir pattern : string) : call (answer string)
| LoadDefaultConfig (accountId accessKey secretKey : string) : call (answer unit)
| PutObject (bucket key body : string) : call (answer unit)
| Upload (bucket key body : string) : call (answer string)
| Now_Format (layout : string) : call string
| Sleep (ms : N) : call unit.

(** The collaborators as a state machine: every call is answered from the
    current state of the outside world and moves it. *)
Class Outside := {
  ext : Type;
  respond : forall A : Type, call A -> ext -> A * ext
}.
Arguments respond {_ A} c x.

(** What a run leaves behind, in order. *)
Inductive event : Type :=
| Ev {A : Type} (c : call A) (a : A)
| ELock | EUnlock | ERLock | ERUnlock
| EStat (path : string) (found : bool)
| EOpen (path : string) (found : bool)
| ERemove (path : string)
| EGo (targetURL r2Key : string).

(** ** The state of the process *)

Section Service.
Context `{Outside} `{NetURL}.

(** The package-level variables, the process environment, the local file
    system (path to contents) and the outside world. *)
Record World := {
  browser : option handle;
  browserContext : option handle;
  isLoggedIn : bool;
  currentUserEmail : string;
  environ : Environ;
  files : gmap string string;
  outside : ext;
  trace : list event
}.

Definition set_browser (v : option handle) (w : World) : World :=
  {| browser := v; browserContext := browserContext w;
     isLoggedIn := isLoggedIn w; currentUserEmail := currentUserEmail w;
     environ := environ w; files := files w; outside := outside w;
     trace := trace w |}.
Definition set_browserContext (v : option handle) (w : World) : World :=
  {| browser := browser w; browserContext := v;
     isLoggedIn := isLoggedIn w; currentUserEmail := currentUserEmail w;
     environ := environ w; files := files w; outside := outside w;
     trace := trace w |}.
Definition set_isLoggedIn (v : bool) (w : World) : World :=
  {| browser := browser w; browserContext := browserContext w;
     isLoggedIn := v; currentUserEmail := currentUserEmail w;
     environ := environ w; files := files w; outside := outside w;
     trace := trace w |}.
Definition set_currentUserEmail (v : string) (w : World) : World :=
  {| browser := browser w; browserContext := browserContext w;
     isLoggedIn := isLoggedIn w; currentUserEmail := v;
     environ := environ w; files := files w; outside := outside w;
     trace := trace w |}.
Definition set_files (v : gmap string string) (w : World) : World :=
  {| browser := browser w; browserContext := browserContext w;
     isLoggedIn := isLoggedIn w; currentUserEmail := currentUserEmail w;
     environ := environ w; files := v; outside := outside w;
     trace := trace w |}.
Definition step_outside (x : ext) (e : event) (w : World) : World :=
  {| browser := browser w; browserContext := browserContext w;
     isLoggedIn := isLoggedIn w; currentUserEmail := currentUserEmail w;
     environ := environ w; files := files w; outside := x;
     trace := trace w ++ [e] |}.

(** ** The monad of the service's functions *)

Definition M (A : Type) : Type := World -> res A * World.

Definition ret {A} (a : A) : M A := fun w => (Val a, w).

Definition bind {A B} (m : M A) (k : A -> M B) : M B :=
  fun w =>
    match m w with
    | (Val a, w') => k a w'
    | (Raise e, w') => (Raise e, w')
    | (Panic e, w') => (Panic e, w')
    | (Exit e, w') => (Exit e, w')
    end.

Definition raise {A} (err : string) : M A := fun w => (Raise err, w).
Definition panic {A} (msg : string) : M A := fun w => (Panic msg, w).
Definition log_Fatalf {A} (msg : string) : M A := fun w => (Exit msg, w).

Definition gets {A} (f : World -> A) : M A := fun w => (Val (f w), w).
Definition modify (f : World -> World) : M unit := fun w => (Val tt, f w).

Definition emit (e : event) : M unit :=
  fun w => (Val tt, step_outside (outside w) e w).

(** A call on a collaborator: answered by the outside world, recorded. *)
Definition ask {A} (c : call A) : M A :=
  fun w => let (a, x) := respond c (outside w) in
           (Val a, step_outside x (Ev c a) w).

(** Go's [defer]: [cleanup] runs when [body] returns or panics, not when
    the process exits. *)
Definition defer {A} (cleanup : M unit) (body : M A) : M A :=
  fun w =>
    match body w with
    | (Exit e, w') => (Exit e, w')
    | (r, w') => (r, snd (cleanup w'))
    end.

(** [if err != nil { return fmt.Errorf(prefix + "%v", err) }]. *)
Definition orReturnf {A} (prefix : string) (m : M (answer A)) : M A :=
  bind m (fun r => match r with
                   | Done a => ret a
                   | Failed err => raise (prefix +:+ err)
                   end).

(** [if err != nil { return err }]. *)
Definition orReturn {A} (m : M (answer A)) : M A :=
  bind m (fun r => match r with
                   | Done a => ret a
                   | Failed err => raise err
                   end).

(** [if err != nil { log.Fatalf(prefix + "%v", err) }]. *)
Definition orFatalf {A} (prefix : string) (m : M (answer A)) : M A :=
  bind m (fun r => match r with
                   | Done a => ret a
                   | Failed err => log_Fatalf (prefix +:+ err)
                   end).

(** The caller's view of a function returning [error]. *)
Definition errorOf {A} (m : M A) : M (answer A) :=
  fun w =>
    match m w with
    | (Val a, w') => (Val (Done a), w')
    | (Raise e, w') => (Val (Failed e), w')
    | (Panic e, w') => (Panic e, w')
    | (Exit e, w') => (Exit e, w')
    end.

End Service.

Declare Scope go_scope.
Delimit Scope go_scope with go.
Notation "x <- m ;; k" := (bind m (fun x => k))
  (at level 100, m at next level, right associativity) : go_scope.
Notation "m ;; k" := (bind m (fun _ => k))
  (at level 100, right associativity) : go_scope.

Local Open Scope go_scope.

(** ** Constants of the service *)

Definition dq : string := String (ascii_of_nat 34) EmptyString.
Definition quoted (s : string) : string := dq +:+ s +:+ dq.

Definition stealthScript : string := "
			Object.defineProperty(navigator, 'webdriver', { get: () => undefined });
			Object.defineProperty(navigator, 'plugins', { get: () => [1, 2, 3, 4, 5] });
			Object.defineProperty(navigator, 'languages', { get: () => ['en-US', 'en'] });
		".

Definition launchOptions : LaunchOptions :=
  {| Headless := false;
     Args := ["--disable-blink-features=AutomationControlled"; "--no-sandbox";
              "--disable-dev-shm-usage"; "--start-maximized"] |}.

Definition storedContextOptions (storageStateFile : string) : ContextOptions :=
  {| StorageStatePath := Some storageStateFile; UserAgent := None;
     Viewport := None; Locale := None; TimezoneId := None;
     ExtraHttpHeaders := [] |}.

Definition freshContextOptions : ContextOptions :=
  {| StorageStatePath := None;
     UserAgent := Some "Mozilla/5.0 (Windows NT 10.0; Win64; x64) AppleWebKit/537.36 (KHTML, like Gecko) Chrome/120.0.0.0 Safari/537.36";
     Viewport := Some (1920, 1080);
     Locale := Some "en-US";
     TimezoneId := Some "America/New_York";
     ExtraHttpHeaders := [("Accept-Language", "en-US,en;q=0.9")] |}.

Definition signInSelector : string :=
  "button:has-text(" +:+ quoted "Sign In" +:+ "), a:has-text("
  +:+ quoted "Sign In" +:+ "), [data-testid=" +:+ quoted "login-button" +:+ "]".
Definition continueWithEmailSelector : string :=
  "button:has-text(" +:+ quoted "Continue with email" +:+ "), button:has-text("
  +:+ quoted "Log in with email" +:+ ")".
Definition emailSelector : string :=
  "input[type=" +:+ quoted "email" +:+ "], input[name=" +:+ quoted "email"
  +:+ "], #email".
Definition passwordSelector : string :=
  "input[type=" +:+ quoted "password" +:+ "], input[name=" +:+ quoted "password"
  +:+ "], #password".
Definition stayLoggedInSelector : string :=
  "input[type=" +:+ quoted "checkbox" +:+ "][name=" +:+ quoted "remember"
  +:+ "], input[type=" +:+ quoted "checkbox" +:+ "]#remember, .remember-me input".
Definition loginButtonSelector : string :=
  "button[type=" +:+ quoted "submit" +:+ "]:has-text(" +:+ quoted "Log in"
  +:+ "), button:has-text(" +:+ quoted "Login" +:+ "), input[type="
  +:+ quoted "submit" +:+ "][value=" +:+ quoted "Log in" +:+ "]".
Definition successSelectors : list string :=
  [ "[data-testid=" +:+ quoted "user-avatar" +:+ "]";
    "img[alt*=" +:+ quoted "avatar" +:+ "]";
    ".user-avatar";
    "button:has-text(" +:+ quoted "Log out" +:+ ")" ].
Definition errorSelectors : list string :=
  [ ".error-message";
    "[role=" +:+ quoted "alert" +:+ "]";
    "text=Invalid"; "text=incorrect"; "text=error" ].
Definition downloadButtonSelector : string :=
  "button:has-text(" +:+ quoted "Download" +:+ ")".

Definition loginPageURL : string := "https://www.freepik.com/login".
Definition signInPageURL : string := "https://www.freepik.com/sign-in".

(** ** Requests and responses of the HTTP front door *)

(** A request as a handler sees it: its method and what [json.Decode]
    makes of its body ([None] when decoding fails). *)
Record Request (T : Type) := {
  Method : string;
  Body : option T
}.
Arguments Method {T} _.
Arguments Body {T} _.

Record DownloadRequest := { dr_URL : string; dr_Email : string }.
Record LoginRequest := { lr_Email : string; lr_Password : string }.

Record DownloadResponse := {
  d_Success : bool; d_Message : string; d_File : string; d_Error : string
}.
Record LoginResponse := {
  l_Success : bool; l_Message : string; l_Error : string
}.

Inductive Payload : Type :=
| PlainText (text : string)
| DownloadJSON (r : DownloadResponse)
| LoginJSON (r : LoginResponse)
| StatusJSON (logged_in : bool) (status : string).

Record Response := { StatusCode : nat; payload : Payload }.

Definition http_Error (text : string) (code : nat) : Response :=
  {| StatusCode := code; payload := PlainText text |}.
Definition jsonResponse (p : Payload) : Response :=
  {| StatusCode := 200; payload := p |}.
Definition errorResponse (message : string) (statusCode : nat) : Response :=
  {| StatusCode := statusCode;
     payload := DownloadJSON {| d_Success := false; d_Message := "";
                                d_File := ""; d_Error := message |} |}.

(** ** The service *)

Section Program.
Context `{Outside} `{NetURL}.

(** [os.UserHomeDir] on Unix. *)
Definition UserHomeDir (env : Environ) : answer string :=
  match env "HOME" with
  | EmptyString => Failed "$HOME is not defined"
  | v => Done v
  end.

Definition homeDirOrDot (env : Environ) : string :=
  match UserHomeDir env with
  | Done homeDir => homeDir
  | Failed _ => "."
  end.

Definition getStorageStatePath (env : Environ) : string :=
  PathJoin (homeDirOrDot env) "freepik_storage_state.json".

(** [os.Stat path] succeeding. *)
Definition os_Stat (path : string) : M bool :=
  fun w => let found := bool_decide (is_Some (files w !! path)) in
           (Val found, step_outside (outside w) (EStat path found) w).

(** [os.Open path]: the contents to be read. *)
Definition os_Open (path : string) : M (answer string) :=
  fun w => match files w !! path with
           | Some data => (Val (Done data), step_outside (outside w) (EOpen path true) w)
           | None => (Val (Failed ("open " +:+ path +:+ ": no such file or directory")),
                      step_outside (outside w) (EOpen path false) w)
           end.

(** [os.Remove path], its error dropped. *)
Definition os_Remove (path : string) : M unit :=
  fun w => (Val tt,
            set_files (delete path (files w)) (step_outside (outside w) (ERemove path) w)).

Definition writeFile (path data : string) : M unit :=
  modify (fun w => set_files (<[path := data]> (files w)) w).

(** A method call on the package-level [browserContext]: a nil interface
    panics. *)
Definition theContext : M handle :=
  c <- gets browserContext ;;
  match c with
  | Some h => ret h
  | None => panic "invalid memory address or nil pointer dereference"
  end.

Definition theBrowser : M handle :=
  b <- gets browser ;;
  match b with
  | Some h => ret h
  | None => panic "invalid memory address or nil pointer dereference"
  end.

(** [createNewContext]. *)
Definition createNewContext : M unit :=
  b <- theBrowser ;;
  r <- ask (NewContext b freshContextOptions) ;;
  match r with
  | Failed err =>
      modify (set_browserContext None) ;;
      log_Fatalf ("Failed to create browser context: " +:+ err)
  | Done c =>
      modify (set_browserContext (Some c)) ;;
      modify (set_isLoggedIn false)
  end.

(** [main], up to the registration of the handlers. *)
Definition main : M unit :=
  orFatalf "Failed to start Playwright: " (ask Playwright_Run) ;;
  b <- orFatalf "Failed to launch browser: " (ask (Chromium_Launch launchOptions)) ;;
  modify (set_browser (Some b)) ;;
  env <- gets environ ;;
  let storageStateFile := getStorageStatePath env in
  found <- os_Stat storageStateFile ;;
  if found then
    r <- ask (NewContext b (storedContextOptions storageStateFile)) ;;
    match r with
    | Failed _ => modify (set_browserContext None) ;; createNewContext
    | Done c => modify (set_browserContext (Some c)) ;; modify (set_isLoggedIn true)
    end
  else createNewContext.

(** The loops over a selector list that stop at the first visible one. *)
Fixpoint anyVisible (page : handle) (selectors : list string) : M bool :=
  match selectors with
  | [] => ret false
  | selector :: rest =>
      visible <- ask (IsVisible page selector) ;;
      if visible then ret true else anyVisible page rest
  end.

(** [performLogin]. *)
Definition performLogin (email password : string) : M unit :=
  emit ELock ;;
  defer (emit EUnlock) (
    c <- theContext ;;
    page <- orReturnf "failed to create page: " (ask (NewPage c)) ;;
    defer (ask (Page_Close page)) (
      orReturnf "failed to inject stealth scripts: "
        (ask (AddInitScript page stealthScript)) ;;
      orReturnf "failed to navigate to freepik: "
        (ask (Goto page "https://www.freepik.com" 30000%N)) ;;
      ask (Sleep 2000%N) ;;
      orReturnf "failed to click sign in button: "
        (ask (Click page signInSelector 10000%N)) ;;
      ask (Sleep 3000%N) ;;
      orReturnf "failed to click continue with email button: "
        (ask (Click page continueWithEmailSelector 10000%N)) ;;
      ask (Sleep 2000%N) ;;
      orReturnf "failed to fill email: "
        (ask (Fill page emailSelector email 10000%N)) ;;
      ask (Sleep 1000%N) ;;
      orReturnf "failed to fill password: "
        (ask (Fill page passwordSelector password 10000%N)) ;;
      ask (Sleep 1000%N) ;;
      visible <- ask (IsVisible page stayLoggedInSelector) ;;
      (if visible then
         _ <- ask (Check page stayLoggedInSelector 5000%N) ;; ret tt
       else ret tt) ;;
      ask (Sleep 1000%N) ;;
      orReturnf "failed to click login button: "
        (ask (Click page loginButtonSelector 10000%N)) ;;
      ask (Sleep 5000%N) ;;
      _ <- ask (Page_URL page) ;;
      loginSuccess <- anyVisible page successSelectors ;;
      (if negb loginSuccess then
         u <- ask (Page_URL page) ;;
         stillOnLogin <-
           (if String.eqb u loginPageURL then ret true
            else u' <- ask (Page_URL page) ;; ret (String.eqb u' signInPageURL)) ;;
         (if stillOnLogin : bool then raise "login failed - still on login page"
          else
            errorShown <- anyVisible page errorSelectors ;;
            if errorShown : bool then raise "login failed - error message detected"
            else ret tt)
       else ret tt) ;;
      env <- gets environ ;;
      let storageStateFile := getStorageStatePath env in
      c' <- theContext ;;
      state <- orReturnf "failed to save storage state: "
                 (ask (StorageState c' storageStateFile)) ;;
      writeFile storageStateFile state ;;
      modify (set_isLoggedIn true) ;;
      ret tt)).

(** [loginHandler]. *)
Definition loginHandler (r : Request LoginRequest) : M Response :=
  if negb (String.eqb (Method r) "POST") then
    ret (http_Error "Method not allowed" 405)
  else
    match Body r with
    | None =>
        ret (jsonResponse (LoginJSON {| l_Success := false; l_Message := "";
                                        l_Error := "Invalid JSON payload" |}))
    | Some req =>
        let email := match lr_Email req with
                     | EmptyString => "mymymy@gmail.com"
                     | e => e
                     end in
        emit ELock ;;
        modify (set_currentUserEmail email) ;;
        emit EUnlock ;;
        let password := match lr_Password req with
                        | EmptyString => "mypassword"
                        | p => p
                        end in
        err <- errorOf (performLogin email password) ;;
        match err with
        | Failed e =>
            ret (jsonResponse (LoginJSON {| l_Success := false; l_Message := "";
                                            l_Error := "Login failed: " +:+ e |}))
        | Done _ =>
            ret (jsonResponse (LoginJSON {| l_Success := true;
                                            l_Message := "Login successful";
                                            l_Error := "" |}))
        end
    end.

(** [downloadHandler].  The goroutine it starts is recorded, not run. *)
Definition downloadHandler (r : Request DownloadRequest) : M Response :=
  if negb (String.eqb (Method r) "POST") then
    ret (http_Error "Method not allowed" 405)
  else
    match Body r with
    | None => ret (errorResponse "Invalid JSON payload" 400)
    | Some req =>
        if String.eqb (dr_URL req) "" then
          ret (errorResponse "URL is required" 400)
        else if String.eqb (dr_Email req) "" then
          ret (errorResponse "Email is required for file storage" 400)
        else
          emit ERLock ;;
          loggedIn <- gets isLoggedIn ;;
          email <- gets currentUserEmail ;;
          emit ERUnlock ;;
          if negb loggedIn then
            ret (errorResponse "Not logged in. Please login first." 401)
          else
            env <- gets environ ;;
            match generateR2Path env (dr_URL req) email with
            | None => panic "invalid memory address or nil pointer dereference"
            | Some (publicURL, r2ObjectKey) =>
                emit (EGo (dr_URL req) r2ObjectKey) ;;
                ret (jsonResponse
                       (DownloadJSON {| d_Success := true;
                                        d_Message := "Download started";
                                        d_File := publicURL; d_Error := "" |}))
            end
    end.

(** [statusHandler]. *)
Definition statusHandler (r : Request unit) : M Response :=
  if negb (String.eqb (Method r) "GET") then
    ret (http_Error "Method not allowed" 405)
  else
    emit ERLock ;;
    defer (emit ERUnlock) (
      loggedIn <- gets isLoggedIn ;;
      ret (jsonResponse (StatusJSON loggedIn "ready"))).

(** [uploadToR2]. *)
Definition uploadToR2 (localPath objectKey : string) : M unit :=
  env <- gets environ ;;
  let accountId := getEnv env "R2_ACCOUNT_ID" "" in
  let accessKey := getEnv env "R2_ACCESS_KEY" "" in
  let secretKey := getEnv env "R2_SECRET_KEY" "" in
  let bucketName := getEnv env "R2_BUCKET_NAME" "" in
  orReturn (ask (LoadDefaultConfig accountId accessKey secretKey)) ;;
  file <- orReturn (os_Open localPath) ;;
  orReturn (ask (PutObject bucketName objectKey file)).

(** [runDownload]: the path of the staged file. *)
Definition runDownload (targetURL : string) : M string :=
  emit ERLock ;;
  currentContext <- gets browserContext ;;
  emit ERUnlock ;;
  c <- match currentContext with
       | Some h => ret h
       | None => panic "invalid memory address or nil pointer dereference"
       end ;;
  page <- orReturnf "failed to create new page: " (ask (NewPage c)) ;;
  defer (ask (Page_Close page)) (
    orReturnf "failed to inject stealth scripts: "
      (ask (AddInitScript page stealthScript)) ;;
    env <- gets environ ;;
    let downloadPath := PathJoin (homeDirOrDot env) "freepik_downloads" in
    orReturnf "failed to create download directory: " (ask (MkdirAll downloadPath)) ;;
    orReturnf "failed to navigate to page: " (ask (Goto page targetURL 60000%N)) ;;
    ask (Sleep 3000%N) ;;
    title <- orReturnf "failed to get page title: " (ask (Title page)) ;;
    if String.eqb title "Access Denied" || String.eqb title "Just a moment..." then
      raise "page blocked by anti-bot protection"
    else
      visible <- ask (IsVisible page downloadButtonSelector) ;;
      if negb visible then raise "download button not found"
      else
        download <- orReturnf "failed to click download button: "
                      (ask (ExpectDownload page downloadButtonSelector 30000%N)) ;;
        filename <- ask (SuggestedFilename download) ;;
        let saveFileTo := PathJoin downloadPath filename in
        data <- orReturnf "failed to save file: " (ask (SaveAs download saveFileTo)) ;;
        writeFile saveFileTo data ;;
        ret saveFileTo).

(** [processDownload]: errors are only logged. *)
Definition processDownload (targetURL r2Key : string) : M unit :=
  r <- errorOf (runDownload targetURL) ;;
  match r with
  | Failed _ => ret tt
  | Done localFilePath =>
      u <- errorOf (uploadToR2 targetURL r2Key) ;;
      match u with
      | Failed _ => ret tt
      | Done _ => os_Remove localFilePath
      end
  end.

End Program.

(** ** Reading traces *)

Definition visibleQuery (e : event) : option (string * bool) :=
  match e with
  | @Ev A c a =>
      match c in call T return T -> option (string * bool) with
      | IsVisible _ selector => fun b => Some (selector, b)
      | _ => fun _ => None
      end a
  | _ => None
  end.

Definition titleRead (e : event) : option (answer string) :=
  match e with
  | @Ev A c a =>
      match c in call T return T -> option (answer string) with
      | Title _ => fun t => Some t
      | _ => fun _ => None
      end a
  | _ => None
  end.



Definition storageStateCall (e : event) : option (handle * string * answer string) :=
  match e with
  | @Ev A c a =>
      match c in call T return T -> option (handle * string * answer string) with
      | StorageState context path => fun r => Some (context, path, r)
      | _ => fun _ => None
      end a
  | _ => None
  end.

Definition newContextCall (e : event) : option (ContextOptions * answer handle) :=
  match e with
  | @Ev A c a =>
      match c in call T return T -> option (ContextOptions * answer handle) with
      | NewContext _ o => fun r => Some (o, r)
      | _ => fun _ => None
      end a
  | _ => None
  end.

(** A call of the object store: loading its configuration, or sending an
    object. *)
Definition isUploadCall (e : event) : bool :=
  match e with
  | @Ev A c a =>
      match c with
      | LoadDefaultConfig _ _ _ | PutObject _ _ _ | Upload _ _ _ => true
      | _ => false
      end
  | _ => false
  end.

(** Work on the browser or on the object store. *)
Definition isCall (e : event) : bool :=
  match e with
  | Ev _ _ => true
  | _ => false
  end.

Definition isGo (e : event) : bool :=
  match e with
  | EGo _ _ => true
  | _ => false
  end.

Definition isRemoveOf (path : string) (e : event) : bool :=
  match e with
  | ERemove p => String.eqb p path
  | _ => false
  end.

(** How often [path] was removed. *)
Definition removals (path : string) (tr : list event) : nat :=
  length (List.filter (isRemoveOf path) tr).

(** ** A scripted outside world, to run the service on examples *)

Record Script := {
  failing : list string;      (* the calls that fail, by name *)
  pageTitle : string;
  pageURL : string;
  visibleSelectors : list string;
  suggestedFilename : string;
  payloadData : string;
  nextHandle : handle
}.

Definition callName {A} (c : call A) : string :=
  match c with
  | Playwright_Run => "Run"
  | Chromium_Launch _ => "Launch"
  | NewContext _ _ => "NewContext"
  | NewPage _ => "NewPage"
  | Page_Close _ => "Close"
  | AddInitScript _ _ => "AddInitScript"
  | Goto _ _ _ => "Goto"
  | Click _ _ _ => "Click"
  | Fill _ _ _ _ => "Fill"
  | Check _ _ _ => "Check"
  | IsVisible _ _ => "IsVisible"
  | Page_URL _ => "URL"
  | Title _ => "Title"
  | ExpectDownload _ _ _ => "ExpectDownload"
  | SuggestedFilename _ => "SuggestedFilename"
  | SaveAs _ _ => "SaveAs"
  | StorageState _ _ => "StorageState"
  | MkdirAll _ => "MkdirAll"
  | CreateTemp _ _ => "CreateTemp"
  | LoadDefaultConfig _ _ _ => "LoadDefaultConfig"
  | PutObject _ _ _ => "PutObject"
  | Upload _ _ _ => "Upload"
  | Now_Format _ => "Now"
  | Sleep _ => "Sleep"
  end.

Definition fresh (s : Script) : Script :=
  {| failing := failing s; pageTitle := pageTitle s; pageURL := pageURL s;
     visibleSelectors := visibleSelectors s;
     suggestedFilename := suggestedFilename s; payloadData := payloadData s;
     nextHandle := S (nextHandle s) |}.

Definition scripted {A} (c : call A) (s : Script) : A * Script :=
  let ok {B} (b : B) : answer B :=
    if existsb (String.eqb (callName c)) (failing s)
    then Failed (callName c +:+ " failed") else Done b in
  match c in call T return T * Script with
  | Playwright_Run => (ok tt, s)
  | Chromium_Launch _ => (ok (nextHandle s), fresh s)
  | NewContext _ _ => (ok (nextHandle s), fresh s)
  | NewPage _ => (ok (nextHandle s), fresh s)
  | Page_Close _ => (tt, s)
  | AddInitScript _ _ => (ok tt, s)
  | Goto _ _ _ => (ok tt, s)
  | Click _ _ _ => (ok tt, s)
  | Fill _ _ _ _ => (ok tt, s)
  | Check _ _ _ => (ok tt, s)
  | IsVisible _ selector =>
      (existsb (String.eqb selector) (visibleSelectors s), s)
  | Page_URL _ => (pageURL s, s)
  | Title _ => (ok (pageTitle s), s)
  | ExpectDownload _ _ _ => (ok (nextHandle s), fresh s)
  | SuggestedFilename _ => (suggestedFilename s, s)
  | SaveAs _ _ => (ok (payloadData s), s)
  | StorageState _ _ => (ok "{}", s)
  | MkdirAll _ => (ok tt, s)
  | CreateTemp dir pattern => (ok "/tmp/freepik-1", s)
  | LoadDefaultConfig _ _ _ => (ok tt, s)
  | PutObject _ _ _ => (ok tt, s)
  | Upload bucket key _ => (ok (bucket +:+ "/" +:+ key), s)
  | Now_Format _ => ("2026-01-02", s)
  | Sleep _ => (tt, s)
  end.

Definition scriptedOutside : Outside :=
  {| ext := Script; respond := @scripted |}.

Definition happyScript : Script :=
  {| failing := []; pageTitle := "Red fox"; pageURL := "https://www.freepik.com/";
     visibleSelectors := [downloadButtonSelector; ".user-avatar"];
     suggestedFilename := "red-fox.jpg"; payloadData := "JPEGDATA";
     nextHandle := 1 |}.

Definition withFailing (names : list string) (s : Script) : Script :=
  {| failing := names; pageTitle := pageTitle s; pageURL := pageURL s;
     visibleSelectors := visibleSelectors s;
     suggestedFilename := suggestedFilename s; payloadData := payloadData s;
     nextHandle := nextHandle s |}.
Definition withTitle (t : string) (s : Script) : Script :=
  {| failing := failing s; pageTitle := t; pageURL := pageURL s;
     visibleSelectors := visibleSelectors s;
     suggestedFilename := suggestedFilename s; payloadData := payloadData s;
     nextHandle := nextHandle s |}.
Definition withVisible (sel : list string) (s : Script) : Script :=
  {| failing := failing s; pageTitle := pageTitle s; pageURL := pageURL s;
     visibleSelectors := sel;
     suggestedFilename := suggestedFilename s; payloadData := payloadData s;
     nextHandle := nextHandle s |}.

Definition homeEnv : Environ :=
  fun key => if String.eqb key "HOME" then "/root" else "".

(** A process that started from a stored session. *)
Definition servingWorld (s : Script) : @World scriptedOutside :=
  @Build_World scriptedOutside (Some 1) (Some 2) true "a@b.com" homeEnv ∅ s [].

Definition bootWorld (s : Script) (fs : gmap string string) : @World scriptedOutside :=
  @Build_World scriptedOutside None None false "" homeEnv fs s [].

(** ** Shapes of names, to state what the key is *)

Fixpoint allBytes (p : ascii -> bool) (s : string) : bool :=
  match s with
  | EmptyString => true
  | String a s' => p a && allBytes p s'
  end.

Definition isDigit (c : ascii) : bool :=
  let n := nat_of_ascii c in ((48 <=? n)%nat && (n <=? 57)%nat).

(** A numeric id: one digit or more. *)
Definition isNumericId (s : string) : bool :=
  match s with
  | EmptyString => false
  | _ => allBytes isDigit s
  end.

Definition noByte (c : ascii) (s : string) : bool :=
  negb (containsByte (Ascii.eqb c) s).

(** What comes before the last byte [c] of [s]; all of [s] when [c] does
    not occur. *)
Fixpoint beforeLast (c : ascii) (s : string) : string :=
  match s with
  | EmptyString => EmptyString
  | String a s' =>
      if containsByte (Ascii.eqb c) s' then String a (beforeLast c s')
      else if Ascii.eqb a c then EmptyString else String a s'
  end.

(** The file name the code makes: the base name of the path, without its
    extension, without what follows its last underscore (whatever that
    is), with the canonical extension. *)
Definition fileNameOf (path : string) : string :=
  beforeLast "_" (beforeLast "." (Base path)) +:+ ".jpg".

(** What follows the last byte [c] of [s]; empty when [c] does not
    occur. *)
Fixpoint afterLast (c : ascii) (s : string) : string :=
  match s with
  | EmptyString => EmptyString
  | String a s' =>
      if containsByte (Ascii.eqb c) s' then afterLast c s'
      else if Ascii.eqb a c then s' else EmptyString
  end.

(** The file name as the specification words it: the base name of the
    path, without its extension, without a trailing underscore and numeric
    id, with the canonical extension.  A trailing part that is not a
    numeric id stays. *)
Definition wordedFileName (path : string) : string :=
  let name := beforeLast "." (Base path) in
  (if isNumericId (afterLast "_" name) then beforeLast "_" name else name)
  +:+ ".jpg".

Definition wordedKey (email path : string) : string :=
  QueryEscape email +:+ "/" +:+ wordedFileName path.

(** An extension without a dot or a separator of its own. *)
Definition plainExt (ext : string) : bool := noByte "." ext && noByte "/" ext.

(** The key as the specification words it: the escaped identity, a slash,
    and the slug with the canonical extension. *)
Definition keyOf (email slug : string) : string :=
  QueryEscape email +:+ "/" +:+ slug +:+ ".jpg".


(** ** Vocabulary of the statements *)

(** [w] with [es] appended to its trace, nothing else changed. *)
Definition logged `{Outside} (es : list event) (w : World) : World :=
  {| browser := browser w; browserContext := browserContext w;
     isLoggedIn := isLoggedIn w; currentUserEmail := currentUserEmail w;
     environ := environ w; files := files w; outside := outside w;
     trace := trace w ++ es |}.

Definition postDownload (url email : string) : Request DownloadRequest :=
  {| Method := "POST"; Body := Some {| dr_URL := url; dr_Email := email |} |}.

Definition postLogin (email password : string) : Request LoginRequest :=
  {| Method := "POST"; Body := Some {| lr_Email := email; lr_Password := password |} |}.

(** The credentials [loginHandler] really uses. *)
Definition effectiveEmail (email : string) : string :=
  match email with
  | EmptyString => "mymymy@gmail.com"
  | e => e
  end.
Definition effectivePassword (password : string) : string :=
  match password with
  | EmptyString => "mypassword"
  | p => p
  end.

(** [m] relates every world to the one it leaves. *)
Definition preserves `{Outside} (R : World -> World -> Prop) {A} (m : M A) : Prop :=
  forall w, R w (snd (m w)).

(** [m] returns normally, or relates the world to the one it leaves. *)
Definition preservesUnlessVal `{Outside} (R : World -> World -> Prop) {A} (m : M A)
  : Prop :=
  forall w, (exists a, fst (m w) = Val a) \/ R w (snd (m w)).

(** The package-level session variables are the same in both worlds. *)
Definition sameSession `{Outside} (w w' : World) : Prop :=
  browser w' = browser w /\ browserContext w' = browserContext w
  /\ isLoggedIn w' = isLoggedIn w /\ environ w' = environ w.

Definition sameEmail `{Outside} (w w' : World) : Prop :=
  currentUserEmail w' = currentUserEmail w /\ environ w' = environ w.

(** The relations the frame rules work for: preorders that calls on the
    collaborators and writes to the file system respect. *)
Class FrameRel `{Outside} (R : World -> World -> Prop) : Prop := {
  frame_refl : forall w, R w w;
  frame_trans : forall w1 w2 w3, R w1 w2 -> R w2 w3 -> R w1 w3;
  frame_call :
    forall (w : World) x A (c : call A) (a : A), R w (step_outside x (Ev c a) w);
  frame_files : forall (w : World) v, R w (set_files v w)
}.

Definition notLoggedIn : Response :=
  {| StatusCode := 401;
     payload := DownloadJSON {| d_Success := false; d_Message := ""; d_File := "";
                                d_Error := "Not logged in. Please login first." |} |}.

Definition wellFormed (r : Request DownloadRequest) : Prop :=
  exists url email, url <> "" /\ email <> "" /\ r = postDownload url email.

(** Download requests served one after the other. *)
Fixpoint serveDownloads `{Outside} `{NetURL} (reqs : list (Request DownloadRequest))
    (w : World) : list (res Response) * World :=
  match reqs with
  | [] => ([], w)
  | r :: rest =>
      let (resp, w1) := downloadHandler r w in
      let (resps, w2) := serveDownloads rest w1 in
      (resp :: resps, w2)
  end.

(** The lock events of [n] reads of the session, one after the other. *)
Fixpoint readSections (n : nat) : list event :=
  match n with
  | O => []
  | S n' => ERLock :: ERUnlock :: readSections n'
  end.

(** The world once [loginHandler] has stored the request's email under the
    write lock, before it calls [performLogin]. *)
Definition storeEmail `{Outside} (email : string) (w : World) : World :=
  logged [ELock; EUnlock] (set_currentUserEmail email w).

Definition loginFailure (err : string) : Response :=
  jsonResponse (LoginJSON {| l_Success := false; l_Message := "";
                             l_Error := "Login failed: " +:+ err |}).

Definition sampleURL : string :=
  "https://www.freepik.com/free-photo/red-fox_12345.htm".

(** The contexts a trace shows being created. *)
Definition createdContexts (tr : list event) : list handle :=
  flat_map (fun e => match newContextCall e with
                     | Some (_, Done c) => [c]
                     | _ => []
                     end) tr.

(** The three ways [main] gets to serve, as traces: from the stored
    session, from scratch, and from scratch after the stored session would
    not load. *)
Definition startedFromStorage (path : string) (b c : handle) : list event :=
  [ Ev Playwright_Run (Done tt); Ev (Chromium_Launch launchOptions) (Done b);
    EStat path true;
    Ev (NewContext b (storedContextOptions path)) (Done c) ].
Definition startedFresh (path : string) (b c : handle) : list event :=
  [ Ev Playwright_Run (Done tt); Ev (Chromium_Launch launchOptions) (Done b);
    EStat path false;
    Ev (NewContext b freshContextOptions) (Done c) ].
Definition startedAfterLoadFailure (path err : string) (b c : handle) : list event :=
  [ Ev Playwright_Run (Done tt); Ev (Chromium_Launch launchOptions) (Done b);
    EStat path true;
    Ev (NewContext b (storedContextOptions path)) (Failed err);
    Ev (NewContext b freshContextOptions) (Done c) ].

Definition tempCreated (e : event) : option (answer string) :=
  match e with
  | @Ev A c a =>
      match c in call T return T -> option (answer string) with
      | CreateTemp _ _ => fun r => Some r
      | _ => fun _ => None
      end a
  | _ => None
  end.

(** ** The temporary-file variant of the download pipeline
    ([src/unnamed/part_000]) *)

Module TempVariant.
Section Program.
Context `{Outside}.

(** [if err != nil { return fmt.Errorf(prefix + "%v", err) }] around a
    function of the service. *)
Definition rewrapf {A} (prefix : string) (m : M A) : M A :=
  r <- errorOf m ;;
  match r with
  | Done a => ret a
  | Failed err => raise (prefix +:+ err)
  end.

(** [os.CreateTemp], closed at once: an empty file under a fresh name. *)
Definition os_CreateTemp (dir pattern : string) : M (answer string) :=
  r <- ask (CreateTemp dir pattern) ;;
  match r with
  | Done tmpPath => writeFile tmpPath "" ;; ret (Done tmpPath)
  | Failed err => ret (Failed err)
  end.

(** [uploadToR2]: the location the uploader reports. *)
Definition uploadToR2 (reader filename : string) : M string :=
  env <- gets environ ;;
  let bucketName := getEnv env "R2_BUCKET_NAME" "freepik-downloads" in
  timestamp <- ask (Now_Format "2006-01-02") ;;
  let key := timestamp +:+ "/" +:+ filename in
  orReturnf "failed to upload to R2: " (ask (Upload bucketName key reader)).

(** [runDownload]: download, stage in a temporary file, upload. *)
Definition runDownload (targetURL : string) : M unit :=
  emit ERLock ;;
  currentContext <- gets browserContext ;;
  emit ERUnlock ;;
  c <- match currentContext with
       | Some h => ret h
       | None => panic "invalid memory address or nil pointer dereference"
       end ;;
  page <- orReturnf "failed to create new page: " (ask (NewPage c)) ;;
  defer (ask (Page_Close page)) (
    orReturnf "failed to inject stealth scripts: "
      (ask (AddInitScript page stealthScript)) ;;
    orReturnf "failed to navigate to page: " (ask (Goto page targetURL 60000%N)) ;;
    ask (Sleep 3000%N) ;;
    title <- orReturnf "failed to get page title: " (ask (Title page)) ;;
    if String.eqb title "Access Denied" || String.eqb title "Just a moment..." then
      raise "page blocked by anti-bot protection"
    else
      visible <- ask (IsVisible page downloadButtonSelector) ;;
      if negb visible then raise "download button not found"
      else
        download <- orReturnf "failed to click download button: "
                      (ask (ExpectDownload page downloadButtonSelector 30000%N)) ;;
        filename <- ask (SuggestedFilename download) ;;
        tmpPath <- orReturnf "failed to create temp file: "
                     (os_CreateTemp "" "freepik-*") ;;
        defer (os_Remove tmpPath) (
          data <- orReturnf "failed to save download: "
                    (ask (SaveAs download tmpPath)) ;;
          writeFile tmpPath data ;;
          file <- orReturnf "failed to open temp file: " (os_Open tmpPath) ;;
          _ <- rewrapf "failed to upload to R2: " (uploadToR2 file filename) ;;
          ret tt)).

(** [processDownload]: the error is only logged. *)
Definition processDownload (targetURL : string) : M unit :=
  _ <- errorOf (runDownload targetURL) ;; ret tt.

End Program.
End TempVariant.

(** ** The reader/writer lock and interleaved goroutines *)

(** [sync.RWMutex]: whether a writer holds it, and how many readers do. *)
Record RWMutex := { writer : bool; readers : nat }.

Definition unlocked : RWMutex := {| writer := false; readers := 0 |}.

(** The lock operation [e] when the mutex is [m]: [None] when the caller
    has to wait ([Lock] while anyone holds the mutex, [RLock] while a
    writer does) or the operation is a fatal misuse (unlocking what is not
    locked).  Other events do not involve the mutex. *)
Definition mutexStep (e : event) (m : RWMutex) : option RWMutex :=
  match e with
  | ELock =>
      if writer m || negb (Nat.eqb (readers m) 0) then None
      else Some {| writer := true; readers := readers m |}
  | EUnlock =>
      if writer m then Some {| writer := false; readers := readers m |} else None
  | ERLock =>
      if writer m then None
      else Some {| writer := false; readers := S (readers m) |}
  | ERUnlock =>
      match readers m with
      | S n => Some {| writer := writer m; readers := n |}
      | O => None
      end
  | _ => Some m
  end.

(** What a goroutine holds of the mutex. *)
Inductive Held : Type := Free | Writing | Reading.

Definition hold (h : Held) (e : event) : Held :=
  match e with
  | ELock => Writing
  | EUnlock | ERUnlock => Free
  | ERLock => Reading
  | _ => h
  end.

Definition heldOf (past : list event) : Held := fold_left hold past Free.

Definition isWriting (h : Held) : bool :=
  match h with Writing => true | _ => false end.
Definition isReading (h : Held) : bool :=
  match h with Reading => true | _ => false end.

(** A goroutine: the events it has performed and those still to come. *)
Record Thread := { past : list event; todo : list event }.

Definition holds (t : Thread) : Held := heldOf (past t).

Definition spawn (prog : list event) : Thread := {| past := []; todo := prog |}.

Definition advance (t : Thread) : Thread :=
  match todo t with
  | e :: rest => {| past := past t ++ [e]; todo := rest |}
  | [] => t
  end.

(** One goroutine performs its next event, the mutex permitting. *)
Inductive step : RWMutex * list Thread -> RWMutex * list Thread -> Prop :=
| step_event (m m' : RWMutex) (ts : list Thread) (i : nat) (t : Thread)
    (e : event) (rest : list event) :
    ts !! i = Some t ->
    todo t = e :: rest ->
    mutexStep e m = Some m' ->
    step (m, ts) (m', <[i := advance t]> ts).

(** The configurations some interleaving of [progs] gets to. *)
Definition reachable (progs : list (list event)) (c : RWMutex * list Thread) : Prop :=
  rtc step (unlocked, map spawn progs) c.

(** A goroutine's use of the mutex is well bracketed from [h] on: it
    locks only what it does not hold, unlocks only what it holds in that
    mode, and ends holding nothing. *)
Fixpoint bracketedFrom (h : Held) (es : list event) : bool :=
  match es with
  | [] => match h with Free => true | _ => false end
  | e :: rest =>
      match e, h with
      | ELock, Free | ERLock, Free | EUnlock, Writing | ERUnlock, Reading =>
          bracketedFrom (hold h e) rest
      | (ELock | ERLock | EUnlock | ERUnlock), _ => false
      | _, _ => bracketedFrom h rest
      end
  end.

(** A sequence of write-locked sections with nothing in between: every
    call on a collaborator is made inside one. *)
Fixpoint sectionsFrom (inside : bool) (es : list event) : bool :=
  match es with
  | [] => negb inside
  | ELock :: rest => negb inside && sectionsFrom true rest
  | EUnlock :: rest => inside && sectionsFrom false rest
  | Ev _ _ :: rest => inside && sectionsFrom inside rest
  | _ => false
  end.

(** One write-locked section: [Lock], calls, [Unlock]. *)
Definition isCriticalSection (es : list event) : bool :=
  match es with
  | ELock :: rest =>
      match rev rest with
      | EUnlock :: body => forallb isCall body
      | _ => false
      end
  | _ => false
  end.

(** The goroutines of the service: a request being handled, or the
    download task a request started; each runs from the world it finds. *)
Section Jobs.
Context `{Outside} `{NetURL}.

Inductive Job : Type :=
| LoginJob (r : Request LoginRequest) (w : World)
| DownloadJob (r : Request DownloadRequest) (w : World)
| StatusJob (r : Request unit) (w : World)
| TransferJob (targetURL r2Key : string) (w : World).

Definition clearTrace (w : World) : World :=
  {| browser := browser w; browserContext := browserContext w;
     isLoggedIn := isLoggedIn w; currentUserEmail := currentUserEmail w;
     environ := environ w; files := files w; outside := outside w;
     trace := [] |}.

(** The events of a goroutine, in order. *)
Definition eventsOf (j : Job) : list event :=
  match j with
  | LoginJob r w => trace (snd (loginHandler r (clearTrace w)))
  | DownloadJob r w => trace (snd (downloadHandler r (clearTrace w)))
  | StatusJob r w => trace (snd (statusHandler r (clearTrace w)))
  | TransferJob targetURL r2Key w =>
      trace (snd (processDownload targetURL r2Key (clearTrace w)))
  end.

End Jobs.

(** How many goroutines hold the mutex in a mode. *)
Fixpoint countIf (p : Held -> bool) (ts : list Thread) : nat :=
  match ts with
  | [] => 0
  | t :: rest => (if p (holds t) then 1 else 0) + countIf p rest
  end.

(** The mutex agrees with what the goroutines hold, and what each still
    has to do is well bracketed from what it holds. *)
Definition consistent (m : RWMutex) (ts : list Thread) : Prop :=
  Forall (fun t => bracketedFrom (holds t) (todo t) = true) ts
  /\ countIf isWriting ts = (if writer m then 1 else 0)
  /\ countIf isReading ts = readers m
  /\ (writer m = true -> readers m = 0).

(** Each goroutine is somewhere in its own program. *)
Definition tracks (progs : list (list event)) (ts : list Thread) : Prop :=
  forall i t, ts !! i = Some t -> progs !! i = Some (past t ++ todo t).

(** A scheduler to run examples: goroutine [i] performs its next event if
    it has one and the mutex lets it. *)
Definition perform (i : nat) (c : RWMutex * list Thread) : RWMutex * list Thread :=
  match snd c !! i with
  | Some t =>
      match todo t with
      | e :: _ =>
          match mutexStep e (fst c) with
          | Some m' => (m', <[i := advance t]> (snd c))
          | None => c
          end
      | [] => c
      end
  | None => c
  end.

Definition schedule (order : list nat) (progs : list (list event))
  : RWMutex * list Thread :=
  fold_left (fun c i => perform i c) order (unlocked, map spawn progs).

(** Scripts and worlds for the examples. *)
Definition gotoFails : Script := withFailing ["Goto"] happyScript.
Definition ambiguousScript : Script := withVisible [] happyScript.
Definition blockedScript : Script := withTitle "Just a moment..." happyScript.


Definition loggedOutWorld (s : Script) : @World scriptedOutside :=
  @Build_World scriptedOutside (Some 1) (Some 2) false "" homeEnv ∅ s [].

(** Two login requests arriving together. *)
Definition twoLogins : list (@Job scriptedOutside) :=
  [ LoginJob (postLogin "x@y.z" "secret") (loggedOutWorld happyScript);
    LoginJob (postLogin "u@v.w" "hidden") (loggedOutWorld happyScript) ].

(** The first request stores its email, takes the lock again and opens
    its page; then the second request tries to start. *)
Definition firstLoginUnderWay : RWMutex * list Thread :=
  schedule [0; 0; 0; 0; 1] (map (@eventsOf scriptedOutside plainURLPath) twoLogins).

(** ** The rest of the front door *)

Section HealthProgram.
Context `{Outside}.

(** [healthHandler]. *)
Definition healthHandler (r : Request unit) : M Response :=
  if negb (String.eqb (Method r) "GET") then
    ret (http_Error "Method not allowed" 405)
  else
    ret (jsonResponse
           (DownloadJSON {| d_Success := true;
                            d_Message := "Download API is running";
                            d_File := ""; d_Error := "" |})).

End HealthProgram.

Definition getStatus : Request unit := {| Method := "GET"; Body := Some tt |}.

(** ** Startup of the temporary-file variant ([src/unnamed/part_000]) *)

Module TempVariantStartup.
Section Program.
Context `{Outside}.

(** [initR2Client]; the client and the uploader it builds belong to the
    outside world. *)
Definition initR2Client : M unit :=
  env <- gets environ ;;
  let accountID := getEnv env "R2_ACCOUNT_ID" "" in
  let accessKeyID := getEnv env "R2_ACCESS_KEY_ID" "" in
  let secretAccessKey := getEnv env "R2_SECRET_ACCESS_KEY" "" in
  if String.eqb accountID "" || String.eqb accessKeyID ""
     || String.eqb secretAccessKey "" then
    raise "R2 credentials not set. Set R2_ACCOUNT_ID, R2_ACCESS_KEY_ID, and R2_SECRET_ACCESS_KEY"
  else
    orReturnf "failed to load AWS config: "
      (ask (LoadDefaultConfig accountID accessKeyID secretAccessKey)).

(** [main] of this variant, up to the registration of the handlers: the
    object-store client first, then as in the latest variant. *)
Definition main : M unit :=
  r <- errorOf initR2Client ;;
  match r with
  | Failed err => log_Fatalf ("Failed to initialize R2 client: " +:+ err)
  | Done _ => ret tt
  end ;;
  main.

End Program.
End TempVariantStartup.

(** ** More readings of traces *)

(** What [f] finds in a trace, in order. *)
Definition collect {A} (f : event -> option A) (tr : list event) : list A :=
  flat_map (fun e => match f e with Some a => [a] | None => [] end) tr.

Definition pageOpened (e : event) : option handle :=
  match e with
  | @Ev A c a =>
      match c in call T return T -> option handle with
      | NewPage _ => fun r => match r with Done p => Some p | Failed _ => None end
      | _ => fun _ => None
      end a
  | _ => None
  end.

Definition pageClosed (e : event) : option handle :=
  match e with
  | @Ev A c a =>
      match c with
      | Page_Close p => Some p
      | _ => None
      end
  | _ => None
  end.

(** The page a call works on. *)
Definition pageUsed (e : event) : option handle :=
  match e with
  | @Ev A c a =>
      match c with
      | AddInitScript p _ | Goto p _ _ | Click p _ _ | Fill p _ _ _
      | Check p _ _ | IsVisible p _ | Page_URL p | Title p
      | ExpectDownload p _ _ => Some p
      | _ => None
      end
  | _ => None
  end.

Definition putObject (e : event) : option (string * string * string) :=
  match e with
  | @Ev A c a =>
      match c with
      | PutObject bucket key body => Some (bucket, key, body)
      | _ => None
      end
  | _ => None
  end.

Definition uploaderCall (e : event) : option (string * string * string) :=
  match e with
  | @Ev A c a =>
      match c with
      | Upload bucket key body => Some (bucket, key, body)
      | _ => None
      end
  | _ => None
  end.

Definition openedFile (e : event) : option string :=
  match e with
  | EOpen path _ => Some path
  | _ => None
  end.

Definition captureOf (e : event) : option (answer handle) :=
  match e with
  | @Ev A c a =>
      match c in call T return T -> option (answer handle) with
      | ExpectDownload _ _ _ => fun r => Some r
      | _ => fun _ => None
      end a
  | _ => None
  end.

Definition suggestedName (e : event) : option string :=
  match e with
  | @Ev A c a =>
      match c in call T return T -> option string with
      | SuggestedFilename _ => fun n => Some n
      | _ => fun _ => None
      end a
  | _ => None
  end.

Definition savedAs (e : event) : option (string * answer string) :=
  match e with
  | @Ev A c a =>
      match c in call T return T -> option (string * answer string) with
      | SaveAs _ path => fun r => Some (path, r)
      | _ => fun _ => None
      end a
  | _ => None
  end.

Definition timestampOf (e : event) : option string :=
  match e with
  | @Ev A c a =>
      match c in call T return T -> option string with
      | Now_Format _ => fun t => Some t
      | _ => fun _ => None
      end a
  | _ => None
  end.

Definition goOf (e : event) : option (string * string) :=
  match e with
  | EGo targetURL r2Key => Some (targetURL, r2Key)
  | _ => None
  end.

(** What no entry point of the service undoes: the browser, the context
    and the environment stay, and a session that is logged in stays so. *)
Definition sessionKept `{Outside} (w w' : World) : Prop :=
  browser w' = browser w /\ browserContext w' = browserContext w
  /\ environ w' = environ w
  /\ (isLoggedIn w = true -> isLoggedIn w' = true).

(** The directory downloads are staged in. *)
Definition downloadsDir (env : Environ) : string :=
  PathJoin (homeDirOrDot env) "freepik_downloads".


(** The answer of [loginHandler] to a login that went through. *)
Definition loginSuccess : Response :=
  jsonResponse (LoginJSON {| l_Success := true; l_Message := "Login successful";
                             l_Error := "" |}).

Definition invalidLoginPayload : Response :=
  jsonResponse (LoginJSON {| l_Success := false; l_Message := "";
                             l_Error := "Invalid JSON payload" |}).

Definition methodNotAllowed : Response := http_Error "Method not allowed" 405.

(** A function of the service returned normally. *)
Definition returned {A} (r : res A) : bool :=
  match r with
  | Val _ => true
  | _ => false
  end.

(** The answer of [downloadHandler] to a request it accepts. *)
Definition downloadStarted (publicURL : string) : Response :=
  jsonResponse (DownloadJSON {| d_Success := true; d_Message := "Download started";
                                d_File := publicURL; d_Error := "" |}).

(** The life of a page: opened, worked on, closed.  [open] is the page
    that is open; no page is opened while one is, calls and the closing
    are on the open page, and none is left open at the end. *)
Fixpoint pageProtocol (open : option handle) (es : list event) : bool :=
  match es with
  | [] => match open with None => true | Some _ => false end
  | e :: rest =>
      match pageOpened e, pageClosed e, pageUsed e with
      | Some p, _, _ =>
          match open with
          | None => pageProtocol (Some p) rest
          | Some _ => false
          end
      | None, Some p, _ =>
          match open with
          | Some q => Nat.eqb p q && pageProtocol None rest
          | None => false
          end
      | None, None, Some p =>
          match open with
          | Some q => Nat.eqb p q && pageProtocol open rest
          | None => false
          end
      | None, None, None => pageProtocol open rest
      end
  end.

(** The world a goroutine starts from, and the one it leaves. *)
Definition startOf `{Outside} `{NetURL} (j : Job) : World :=
  match j with
  | LoginJob _ w | DownloadJob _ w | StatusJob _ w | TransferJob _ _ w => w
  end.

Definition serve `{Outside} `{NetURL} (j : Job) : World :=
  match j with
  | LoginJob r w => snd (loginHandler r w)
  | DownloadJob r w => snd (downloadHandler r w)
  | StatusJob r w => snd (statusHandler r w)
  | TransferJob targetURL r2Key w => snd (processDownload targetURL r2Key w)
  end.

Definition isLoginJob `{Outside} `{NetURL} (j : Job) : bool :=
  match j with
  | LoginJob _ _ => true
  | _ => false
  end.

(** The value of a hexadecimal digit as [upperhex] writes it. *)
Definition hexValue (c : ascii) : nat :=
  let n := nat_of_ascii c in
  if (n <=? 57)%nat then n - 48 else n - 55.

(** The inverse of [QueryEscape], as [url.QueryUnescape] has it, on
    well-formed input: a plus is a space, a percent sign and two digits
    are the byte they spell. *)
Fixpoint QueryUnescape (s : string) : string :=
  match s with
  | EmptyString => EmptyString
  | String c rest =>
      if Ascii.eqb c "+"%char then String " "%char (QueryUnescape rest)
      else if Ascii.eqb c "%"%char then
        match rest with
        | String a (String b rest') =>
            String (ascii_of_nat (16 * hexValue a + hexValue b)) (QueryUnescape rest')
        | _ => String c (QueryUnescape rest)
        end
      else String c (QueryUnescape rest)
  end.

(** A serving process with files of its own. *)
Definition servingWorldOn (s : Script) (fs : gmap string string)
  : @World scriptedOutside :=
  @Build_World scriptedOutside (Some 1) (Some 2) true "a@b.com" homeEnv fs s [].

(** The process started again on the files a login left. *)
Definition restartedAfterLogin : @World scriptedOutside :=
  bootWorld happyScript
    (files (snd (performLogin "x@y.z" "secret" (loggedOutWorld happyScript)))).

(** * Proofs *)

(** ** The object key *)


Lemma append_cons a s t : String a s +:+ t = String a (s +:+ t).
Proof. reflexivity. Qed.

Lemma append_nil_l t : "" +:+ t = t.
Proof. reflexivity. Qed.

Ltac app_simpl :=
  rewrite ?append_cons, ?append_nil_l;
  cbn [containsByte trimRightBytes lastElement Ext Split Join allBytes
       String.length substring app].

Lemma containsByte_app p s t :
  containsByte p (s +:+ t) = containsByte p s || containsByte p t.
Proof.
  induction s as [|a s IH]; app_simpl; [reflexivity|].
  rewrite IH. now rewrite orb_assoc.
Qed.

Lemma digits_noByte c s :
  isDigit c = false -> allBytes isDigit s = true -> containsByte (Ascii.eqb c) s = false.
Proof.
  intros Hc. induction s as [|a s IH]; app_simpl; [reflexivity|].
  intros Hs. apply andb_true_iff in Hs as [Ha Hs].
  rewrite (IH Hs), orb_false_r.
  destruct (Ascii.eqb c a) eqn:E; [|reflexivity].
  apply Ascii.eqb_eq in E. subst. congruence.
Qed.

Lemma trimRightBytes_keep p s a :
  p a = false -> trimRightBytes p (s +:+ String a EmptyString) = s +:+ String a EmptyString.
Proof.
  intros Ha. induction s as [|b s IH]; app_simpl.
  - now rewrite Ha.
  - rewrite IH. destruct s; reflexivity.
Qed.

Lemma containsByte_slash_eq s :
  containsByte IsPathSeparator s = containsByte (Ascii.eqb "/"%char) s.
Proof.
  induction s as [|a s IH]; app_simpl; [reflexivity|].
  rewrite IH. unfold IsPathSeparator. now rewrite Ascii.eqb_sym.
Qed.

Lemma lastElement_none s :
  containsByte IsPathSeparator s = false -> lastElement s = s.
Proof.
  destruct s as [|a s]; app_simpl; [reflexivity|].
  intros Hs. apply orb_false_iff in Hs as [Ha Hs]. now rewrite Hs, Ha.
Qed.

Lemma lastElement_dir dir name :
  containsByte IsPathSeparator name = false ->
  lastElement (dir +:+ String "/" name) = name.
Proof.
  intros Hn. induction dir as [|a dir IH]; app_simpl.
  - now rewrite Hn.
  - replace (containsByte IsPathSeparator (dir +:+ String "/" name)) with true.
    + exact IH.
    + symmetry. rewrite containsByte_app. cbn [containsByte].
      unfold IsPathSeparator at 2. rewrite Ascii.eqb_refl. now rewrite orb_true_r.
Qed.


Lemma append_assoc s t u : (s +:+ t) +:+ u = s +:+ (t +:+ u).
Proof. induction s as [|a s IH]; app_simpl; [reflexivity|now rewrite IH]. Qed.

Lemma append_nil_r s : s +:+ "" = s.
Proof. induction s as [|a s IH]; app_simpl; [reflexivity|now rewrite IH]. Qed.

Lemma length_append s t : String.length (s +:+ t) = String.length s + String.length t.
Proof. induction s as [|a s IH]; app_simpl; [reflexivity|now rewrite IH]. Qed.

Lemma substring_prefix s t : substring 0 (String.length s) (s +:+ t) = s.
Proof.
  induction s as [|a s IH]; app_simpl.
  - destruct t; reflexivity.
  - now rewrite IH.
Qed.

(** The base name of a path that ends in a non-empty element. *)
Lemma Base_dir dir name a :
  containsByte IsPathSeparator (name +:+ String a "") = false ->
  Base (dir +:+ String "/" (name +:+ String a "")) = name +:+ String a "".
Proof.
  intros Hn. unfold Base.
  assert (Ha : IsPathSeparator a = false).
  { rewrite containsByte_app in Hn. apply orb_false_iff in Hn as [_ Hn].
    cbn [containsByte] in Hn. now rewrite orb_false_r in Hn. }
  replace (dir +:+ String "/" (name +:+ String a ""))
    with ((dir +:+ String "/" name) +:+ String a "")
    by (rewrite append_assoc; reflexivity).
  rewrite (trimRightBytes_keep _ _ _ Ha).
  replace ((dir +:+ String "/" name) +:+ String a "")
    with (dir +:+ String "/" (name +:+ String a ""))
    by (rewrite append_assoc; reflexivity).
  rewrite (lastElement_dir _ _ Hn).
  destruct dir; app_simpl; destruct name; reflexivity.
Qed.

Lemma Ext_nodot s :
  containsByte (Ascii.eqb ".") s = false -> Ext s = "".
Proof.
  induction s as [|a s IH]; app_simpl; [reflexivity|].
  intros Hs. apply orb_false_iff in Hs as [Ha Hs].
  rewrite (IH Hs). rewrite Ascii.eqb_sym in Ha. now rewrite Ha.
Qed.

(** The extension of [pre.ext] when [ext] holds no dot and no separator. *)
Lemma Ext_last_dot pre ext :
  containsByte (Ascii.eqb ".") ext = false ->
  containsByte IsPathSeparator ext = false ->
  Ext (pre +:+ String "." ext) = String "." ext.
Proof.
  intros Hd Hs. induction pre as [|a pre IH]; app_simpl.
  - now rewrite (Ext_nodot _ Hd), Hs.
  - now rewrite IH.
Qed.

Lemma Split_nosep s sep :
  containsByte (Ascii.eqb sep) s = false -> Split s sep = [s].
Proof.
  induction s as [|a s IH]; app_simpl; [reflexivity|].
  intros Hs. apply orb_false_iff in Hs as [Ha Hs].
  rewrite Ascii.eqb_sym in Ha. now rewrite Ha, (IH Hs).
Qed.

Lemma Split_nonempty s sep : Split s sep <> [].
Proof.
  destruct s as [|a s]; app_simpl; [discriminate|].
  destruct (Ascii.eqb a sep); [discriminate|].
  destruct (Split s sep); discriminate.
Qed.

(** Splitting [s_id] when [id] holds no separator: the elements of [s],
    then [id]. *)
Lemma Split_snoc s id sep :
  containsByte (Ascii.eqb sep) id = false ->
  Split (s +:+ String sep id) sep = (Split s sep ++ [id])%list.
Proof.
  intros Hid. induction s as [|a s IH]; app_simpl.
  - now rewrite Ascii.eqb_refl, (Split_nosep _ _ Hid).
  - rewrite IH. destruct (Ascii.eqb a sep); [reflexivity|].
    pose proof (Split_nonempty s sep) as Hne.
    destruct (Split s sep); [congruence|reflexivity].
Qed.

Lemma Join_cons e elems sep :
  elems <> [] -> Join (e :: elems) sep = e +:+ sep +:+ Join elems sep.
Proof. destruct elems; [congruence|reflexivity]. Qed.

Lemma Join_Split s sep :
  Join (Split s sep) (String sep "") = s.
Proof.
  induction s as [|a s IH]; app_simpl; [reflexivity|].
  pose proof (Split_nonempty s sep) as Hne.
  destruct (Ascii.eqb a sep) eqn:E.
  - apply Ascii.eqb_eq in E. subst a.
    rewrite (Join_cons _ _ _ Hne), IH. reflexivity.
  - destruct (Split s sep) as [|h t] eqn:Es; [congruence|].
    destruct t as [|h' t].
    + cbn [Join] in *. now rewrite IH.
    + rewrite Join_cons by discriminate.
      rewrite Join_cons in IH by discriminate.
      rewrite <- IH. reflexivity.
Qed.

Lemma string_snoc s : s <> "" -> exists t a, s = t +:+ String a "".
Proof.
  induction s as [|b s IH]; [congruence|]. intros _.
  destruct s as [|c s].
  - exists "", b. reflexivity.
  - destruct IH as (t & a & Ht); [discriminate|].
    exists (String b t), a. rewrite append_cons, <- Ht. reflexivity.
Qed.

Lemma Base_element dir name :
  name <> "" -> containsByte IsPathSeparator name = false ->
  Base (dir +:+ String "/" name) = name.
Proof.
  intros Hne Hs. destruct (string_snoc name Hne) as (t & a & ->).
  now apply Base_dir.
Qed.

Lemma substring_strip pre suf :
  substring 0 (String.length (pre +:+ suf) - String.length suf) (pre +:+ suf) = pre.
Proof.
  rewrite length_append.
  replace (String.length pre + String.length suf - String.length suf)
    with (String.length pre) by lia.
  apply substring_prefix.
Qed.

Lemma noByte_false c s : noByte c s = true -> containsByte (Ascii.eqb c) s = false.
Proof. unfold noByte. now destruct (containsByte _ s). Qed.

Lemma numericId_noByte c id :
  isDigit c = false -> isNumericId id = true -> containsByte (Ascii.eqb c) id = false.
Proof.
  intros Hc Hid. apply digits_noByte; [exact Hc|].
  destruct id; [discriminate|exact Hid].
Qed.


Lemma lastElement_noslash s : containsByte IsPathSeparator (lastElement s) = false.
Proof.
  induction s as [|a s IH]; [reflexivity|]. cbn [lastElement].
  destruct (containsByte IsPathSeparator s) eqn:Hs; [exact IH|].
  destruct (IsPathSeparator a) eqn:Ha; [exact Hs|].
  cbn [containsByte]. now rewrite Ha, Hs.
Qed.

(** A base name holds no separator, unless it is the root. *)
Lemma Base_noslash path :
  Base path = "/" \/ containsByte IsPathSeparator (Base path) = false.
Proof.
  unfold Base. destruct path as [|a p]; [right; reflexivity|].
  pose proof (lastElement_noslash (trimRightBytes IsPathSeparator (String a p))) as Hl.
  destruct (lastElement _); [left; reflexivity|right; exact Hl].
Qed.

Lemma Ext_nonempty_dot s : Ext s <> "" -> containsByte (Ascii.eqb ".") s = true.
Proof.
  induction s as [|a s IH]; [cbn; congruence|]. cbn [Ext containsByte].
  destruct (Ext s) eqn:He.
  - destruct (Ascii.eqb a ".") eqn:Ha; cbn [andb]; [|congruence].
    intros _. rewrite Ascii.eqb_sym, Ha. reflexivity.
  - intros _. rewrite IH by discriminate. apply orb_true_r.
Qed.

(** Without separators, a name is what comes before its last dot, then
    its extension. *)
Lemma beforeLast_Ext s :
  containsByte IsPathSeparator s = false -> beforeLast "." s +:+ Ext s = s.
Proof.
  induction s as [|a s IH]; [reflexivity|]. cbn [containsByte beforeLast Ext].
  intros Hs. apply orb_false_iff in Hs as [Ha Hs]. specialize (IH Hs).
  destruct (containsByte (Ascii.eqb ".") s) eqn:Hd.
  - destruct (Ext s) eqn:He.
    + exfalso. clear Ha a. rewrite append_nil_r in IH.
      revert Hd IH. clear. induction s as [|b s IHs]; [discriminate|].
      cbn [containsByte beforeLast]. intros Hd Heq.
      destruct (containsByte (Ascii.eqb ".") s) eqn:Hd'.
      * injection Heq as Heq. now apply IHs.
      * rewrite orb_false_r in Hd. rewrite Ascii.eqb_sym in Hd. rewrite Hd in Heq.
        discriminate.
    + rewrite append_cons, IH. reflexivity.
  - rewrite (Ext_nodot s Hd). rewrite Hs. cbn [negb andb].
    destruct (Ascii.eqb a "."); [reflexivity|]. now rewrite append_nil_r.
Qed.

Lemma Split_length_sep s sep :
  (1 <? length (Split s sep))%nat = containsByte (Ascii.eqb sep) s.
Proof.
  induction s as [|a s IH]; [reflexivity|]. cbn [Split containsByte].
  pose proof (Split_nonempty s sep) as Hne.
  rewrite (Ascii.eqb_sym sep a).
  destruct (Ascii.eqb a sep); cbn [orb].
  - destruct (Split s sep); [congruence|reflexivity].
  - rewrite <- IH. destruct (Split s sep) as [|h [|h' t]]; [congruence| |]; reflexivity.
Qed.

(** Dropping the last element of a split and joining again is cutting at
    the last separator. *)
Lemma Join_removelast_Split s sep :
  containsByte (Ascii.eqb sep) s = true ->
  Join (removelast (Split s sep)) (String sep "") = beforeLast sep s.
Proof.
  induction s as [|a s IH]; [discriminate|]. cbn [Split containsByte beforeLast].
  pose proof (Split_nonempty s sep) as Hne.
  pose proof (Split_length_sep s sep) as Hlen.
  rewrite (Ascii.eqb_sym sep a).
  destruct (containsByte (Ascii.eqb sep) s) eqn:Hs.
  - specialize (IH eq_refl). intros _.
    destruct (Split s sep) as [|h [|h' t]] eqn:Es; [congruence|discriminate|].
    destruct (Ascii.eqb a sep) eqn:Ha.
    + apply Ascii.eqb_eq in Ha. subst a.
      change (removelast ("" :: h :: h' :: t)) with ("" :: removelast (h :: h' :: t)).
      rewrite Join_cons, IH; [reflexivity|]. cbn. destruct t; discriminate.
    + change (removelast (String a h :: h' :: t))
        with (String a h :: removelast (h' :: t)).
      change (removelast (h :: h' :: t)) with (h :: removelast (h' :: t)) in IH.
      destruct (removelast (h' :: t)) as [|x l] eqn:Er.
      * cbn [Join] in *. now rewrite IH.
      * rewrite Join_cons in * by discriminate. rewrite <- IH. reflexivity.
  - rewrite orb_false_r. intros Ha. rewrite Ha.
    destruct (Split s sep) as [|h [|h' t]] eqn:Es; [congruence|reflexivity|discriminate].
Qed.

(** The recipe, for every URL that parses: the key is the escaped email,
    a slash and [fileNameOf] of the path; the location is the key after
    the base. *)
Lemma generateR2Path_recipe `{NetURL} (env : Environ) (originalURL email path : string) :
  url_Parse_Path originalURL = Some path ->
  generateR2Path env originalURL email
  = Some (TrimRight (getEnv env "R2_URL" "https://storage.stokbro.net") "/"
            +:+ "/" +:+ QueryEscape email +:+ "/" +:+ fileNameOf path,
          QueryEscape email +:+ "/" +:+ fileNameOf path).
Proof.
  intros Hparse. unfold generateR2Path, fileNameOf. rewrite Hparse. cbv zeta.
  assert (Hstrip : substring 0 (String.length (Base path)
                                - String.length (Ext (Base path))) (Base path)
                   = beforeLast "." (Base path)).
  { destruct (Base_noslash path) as [Hroot|Hns].
    - rewrite Hroot. reflexivity.
    - rewrite <- (beforeLast_Ext _ Hns) at 1 3. apply substring_strip. }
  rewrite Hstrip. set (name := beforeLast "." (Base path)).
  rewrite Split_length_sep.
  destruct (containsByte (Ascii.eqb "_") name) eqn:Hus.
  - rewrite (Join_removelast_Split name "_" Hus). reflexivity.
  - assert (Hname : beforeLast "_" name = name).
    { clear -Hus. induction name as [|a s IH]; [reflexivity|].
      cbn [containsByte beforeLast] in *. apply orb_false_iff in Hus as [Ha Hs].
      rewrite Hs. rewrite Ascii.eqb_sym in Ha. now rewrite Ha. }
    rewrite Hname. reflexivity.
Qed.

(** The shape the specification has in mind: for a URL whose path ends in
    [slug_id.ext] with a numeric [id], the key is
    [<escaped email>/<slug>.jpg] and the public location that key after
    the base without its trailing slashes. *)
Lemma generateR2Path_key `{NetURL} (env env' : Environ)
    (originalURL email dir slug id ext : string) :
  env "R2_URL" = env' "R2_URL" ->
  url_Parse_Path originalURL
    = Some (dir +:+ "/" +:+ slug +:+ "_" +:+ id +:+ "." +:+ ext) ->
  noByte "/" slug = true ->
  isNumericId id = true ->
  plainExt ext = true ->
  generateR2Path env originalURL email
    = Some (TrimRight (getEnv env "R2_URL" "https://storage.stokbro.net") "/"
              +:+ "/" +:+ keyOf email slug,
            keyOf email slug)
  /\ generateR2Path env' originalURL email = generateR2Path env originalURL email.
Proof.
  intros Henv Hparse Hslug Hid Hext.
  split; [|unfold generateR2Path, getEnv; now rewrite Henv].
  apply andb_true_iff in Hext as [Hdot Hsep].
  apply noByte_false in Hslug, Hdot, Hsep.
  pose proof (numericId_noByte "/" id eq_refl Hid) as Hid_sep.
  pose proof (numericId_noByte "_" id eq_refl Hid) as Hid_us.
  rewrite <- containsByte_slash_eq in Hslug, Hsep, Hid_sep.
  set (pre := slug +:+ String "_" id).
  assert (Hname : slug +:+ "_" +:+ id +:+ "." +:+ ext = pre +:+ String "." ext).
  { unfold pre. rewrite !append_assoc. reflexivity. }
  unfold generateR2Path. rewrite Hparse.
  change (dir +:+ "/" +:+ slug +:+ "_" +:+ id +:+ "." +:+ ext)
    with (dir +:+ String "/" (slug +:+ "_" +:+ id +:+ "." +:+ ext)).
  rewrite Hname.
  rewrite Base_element.
  2:{ destruct pre; discriminate. }
  2:{ unfold pre. rewrite !containsByte_app. cbn [containsByte].
      now rewrite Hslug, Hid_sep, Hsep. }
  rewrite (Ext_last_dot pre ext Hdot Hsep).
  cbv zeta. rewrite substring_strip.
  unfold pre. rewrite (Split_snoc slug id "_" Hid_us).
  rewrite removelast_last, Join_Split.
  assert (Hlen : (1 <? length (Split slug "_" ++ [id]))%nat = true).
  { apply Nat.ltb_lt. rewrite length_app. cbn [length].
    pose proof (Split_nonempty slug "_"). destruct (Split slug "_"); [congruence|].
    cbn [length]. lia. }
  rewrite Hlen. reflexivity.
Qed.

(** Where the code and the worded recipe agree: the name has no
    underscore, or what follows its last underscore is a numeric id. *)
Lemma fileNameOf_worded (path : string) :
  isNumericId (afterLast "_" (beforeLast "." (Base path))) = true
  \/ noByte "_" (beforeLast "." (Base path)) = true ->
  fileNameOf path = wordedFileName path.
Proof.
  unfold fileNameOf, wordedFileName. cbv zeta.
  set (name := beforeLast "." (Base path)).
  intros [Hid|Hnone]; [now rewrite Hid|].
  apply noByte_false in Hnone.
  assert (Hkeep : beforeLast "_" name = name).
  { clear -Hnone. induction name as [|a s IH]; [reflexivity|].
    cbn [containsByte beforeLast] in *. apply orb_false_iff in Hnone as [Ha Hs].
    rewrite Hs. rewrite Ascii.eqb_sym in Ha. now rewrite Ha. }
  rewrite Hkeep. now destruct (isNumericId (afterLast "_" name)).
Qed.

(** C2. [generateR2Path] is a function of the URL, the email and the
    value of [R2_URL] alone.  For every URL that parses, the key is the
    escaped email, a slash and the file name: the base name of the path
    without its extension and without whatever follows its last
    underscore, with [.jpg]; the public location is that key after the
    base without its trailing slashes.  This is the recipe of the
    specification whenever the name has no underscore or ends in an
    underscore and a numeric id; for a path ending in [slug_id.ext] with a
    numeric [id] the key is [<escaped email>/<slug>.jpg].  A URL that
    does not parse gives no key: the call panics. *)
Theorem generateR2Path_pure_recipe `{NetURL} (env env' : Environ)
    (originalURL email : string) :
  env "R2_URL" = env' "R2_URL" ->
  generateR2Path env' originalURL email = generateR2Path env originalURL email
  /\ match url_Parse_Path originalURL with
     | None => generateR2Path env originalURL email = None
     | Some path =>
         let key := QueryEscape email +:+ "/" +:+ fileNameOf path in
         generateR2Path env originalURL email
         = Some (TrimRight (getEnv env "R2_URL" "https://storage.stokbro.net") "/"
                   +:+ "/" +:+ key,
                 key)
         /\ (isNumericId (afterLast "_" (beforeLast "." (Base path))) = true
             \/ noByte "_" (beforeLast "." (Base path)) = true ->
             key = wordedKey email path)
         /\ forall dir slug id ext : string,
              path = dir +:+ "/" +:+ slug +:+ "_" +:+ id +:+ "." +:+ ext ->
              noByte "/" slug = true -> isNumericId id = true ->
              plainExt ext = true ->
              key = keyOf email slug
     end.
Proof.
  intros Henv.
  split; [unfold generateR2Path, getEnv; now rewrite Henv|].
  destruct (url_Parse_Path originalURL) as [path|] eqn:Hparse.
  - cbv zeta.
    pose proof (generateR2Path_recipe env originalURL email path Hparse) as Hrec.
    split; [exact Hrec|]. split.
    + intros Hshape. unfold wordedKey. now rewrite (fileNameOf_worded path Hshape).
    + intros dir slug id ext -> Hslug Hid Hext.
      destruct (generateR2Path_key env env originalURL email dir slug id ext
                  eq_refl Hparse Hslug Hid Hext) as [Hkey _].
      rewrite Hrec in Hkey. now injection Hkey as _ Hk.
  - unfold generateR2Path. now rewrite Hparse.
Qed.

(** The worked example of the specification. *)
Lemma generateR2Path_pure_recipe_witness :
  @generateR2Path plainURLPath (fun _ => "")
     "https://www.freepik.com/free-photo/red-fox_12345.htm" "a@b.com"
  = Some ("https://storage.stokbro.net/a%40b.com/red-fox.jpg", "a%40b.com/red-fox.jpg").
Proof.
  exact (proj1 (proj2 (@generateR2Path_pure_recipe plainURLPath
                         (fun _ => "") (fun _ => "")
                         "https://www.freepik.com/free-photo/red-fox_12345.htm"
                         "a@b.com" eq_refl))).
Defined.

(** The recipe as worded strips a numeric id only; the code strips what
    follows the last underscore, whatever it is. *)
Lemma generateR2Path_strips_any_suffix :
  plainURLPath "https://www.freepik.com/free-photo/red_fox.htm"
  = Some "/free-photo/red_fox.htm"
  /\ @generateR2Path plainURLPath (fun _ => "")
       "https://www.freepik.com/free-photo/red_fox.htm" "a@b.com"
     = Some ("https://storage.stokbro.net/a%40b.com/red.jpg", "a%40b.com/red.jpg")
  /\ wordedKey "a@b.com" "/free-photo/red_fox.htm" = "a%40b.com/red_fox.jpg"
  /\ "a%40b.com/red.jpg" <> wordedKey "a@b.com" "/free-photo/red_fox.htm".
Proof.
  split; [reflexivity|]. split; [reflexivity|]. split; [reflexivity|].
  apply String.eqb_neq. reflexivity.
Qed.

(** ** The HTTP front door *)

Section FrontDoor.
Context `{Outside} `{NetURL}.

Lemma logged_logged (w : World) (es es' : list event) :
  logged es' (logged es w) = logged (es ++ es') w.
Proof. unfold logged. cbn. now rewrite <- app_assoc. Qed.

Lemma eqb_nonempty (s : string) : s <> "" -> String.eqb s "" = false.
Proof. intros Hs. now apply String.eqb_neq. Qed.

Lemma downloadHandler_logged_out (w : World) (url email : string) :
  url <> "" -> email <> "" -> isLoggedIn w = false ->
  downloadHandler (postDownload url email) w
  = (Val notLoggedIn, logged [ERLock; ERUnlock] w).
Proof.
  intros Hu He Hl.
  unfold downloadHandler, postDownload. cbn [Method Body dr_URL dr_Email].
  rewrite (eqb_nonempty url Hu), (eqb_nonempty email He).
  destruct w as [b c l e env fs x tr]. cbn in Hl. subst l.
  cbv [logged bind emit gets ret step_outside errorResponse notLoggedIn]. cbn.
  now rewrite <- app_assoc.
Qed.

(** C3. A well-formed download request that arrives while the logged-in
    flag is false is answered 401 with success=false; the handler only
    takes and releases the read lock: it starts no task and calls neither
    the browser nor the object store. *)
Theorem download_not_logged_in (w : World) (url email : string) :
  url <> "" -> email <> "" -> isLoggedIn w = false ->
  downloadHandler (postDownload url email) w
  = (Val {| StatusCode := 401;
            payload := DownloadJSON {| d_Success := false; d_Message := "";
                                       d_File := "";
                                       d_Error := "Not logged in. Please login first." |} |},
     logged [ERLock; ERUnlock] w)
  /\ List.filter (fun e => isGo e || isCall e) [ERLock; ERUnlock] = [].
Proof.
  intros Hu He Hl. split; [|reflexivity].
  now apply downloadHandler_logged_out.
Qed.

(** The same for any number of such requests, one after the other. *)
Lemma downloads_while_logged_out (reqs : list (Request DownloadRequest)) (w : World) :
  Forall wellFormed reqs -> isLoggedIn w = false ->
  Forall (fun resp => resp = Val notLoggedIn) (fst (serveDownloads reqs w))
  /\ snd (serveDownloads reqs w) = logged (readSections (length reqs)) w.
Proof.
  intros Hreqs. revert w. induction Hreqs as [|r reqs Hr _ IH]; intros w Hl.
  - split; [constructor|]. destruct w. unfold logged. cbn. now rewrite app_nil_r.
  - destruct Hr as (url & email & Hu & He & ->).
    cbn [serveDownloads length readSections].
    rewrite (downloadHandler_logged_out w url email Hu He Hl).
    destruct (IH (logged [ERLock; ERUnlock] w) Hl) as [Hall Hw].
    destruct (serveDownloads reqs (logged [ERLock; ERUnlock] w)) as [resps w2].
    cbn [fst snd] in *. split; [constructor; [reflexivity|exact Hall]|].
    rewrite Hw, logged_logged. reflexivity.
Qed.

(** C9. The email of a download request is only checked for emptiness:
    two requests that differ in it alone are handled alike, and the key
    and the location come from [currentUserEmail], the email stored by
    the last login request. *)
Theorem download_key_from_login_email (w : World) (url email email' : string) :
  url <> "" -> email <> "" -> email' <> "" ->
  downloadHandler (postDownload url email) w
    = downloadHandler (postDownload url email') w
  /\ downloadHandler (postDownload url "") w
     = (Val (errorResponse "Email is required for file storage" 400), w)
  /\ forall publicURL r2ObjectKey,
       isLoggedIn w = true ->
       generateR2Path (environ w) url (currentUserEmail w)
         = Some (publicURL, r2ObjectKey) ->
       downloadHandler (postDownload url email) w
       = (Val (jsonResponse
                 (DownloadJSON {| d_Success := true; d_Message := "Download started";
                                  d_File := publicURL; d_Error := "" |})),
          logged [ERLock; ERUnlock; EGo url r2ObjectKey] w).
Proof.
  intros Hu He He'.
  unfold downloadHandler, postDownload. cbn [Method Body dr_URL dr_Email].
  rewrite (eqb_nonempty url Hu), (eqb_nonempty email He), (eqb_nonempty email' He').
  split; [reflexivity|]. split; [reflexivity|].
  intros publicURL r2ObjectKey Hl Hk.
  destruct w as [b c l e env fs x tr]. cbn in Hl, Hk. subst l.
  cbv [logged bind emit gets ret step_outside jsonResponse]. cbn.
  rewrite Hk. cbn. now rewrite <- !app_assoc.
Qed.

End FrontDoor.

(** ** Frame rules of the monad *)

Section Frame.
Context `{Outside} `{NetURL}.
Context (R : World -> World -> Prop) `{!FrameRel R}.

Lemma preserves_ret A (a : A) : preserves R (ret a).
Proof. intros w. apply frame_refl. Qed.

Lemma preserves_raise A e : preserves R (@raise _ A e).
Proof. intros w. apply frame_refl. Qed.

Lemma preserves_panic A e : preserves R (@panic _ A e).
Proof. intros w. apply frame_refl. Qed.

Lemma preserves_log_Fatalf A e : preserves R (@log_Fatalf _ A e).
Proof. intros w. apply frame_refl. Qed.

Lemma preserves_gets A (f : World -> A) : preserves R (gets f).
Proof. intros w. apply frame_refl. Qed.

Lemma preserves_modify (g : World -> World) :
  (forall w, R w (g w)) -> preserves R (modify g).
Proof. intros Hg w. apply Hg. Qed.

Lemma preserves_emit e :
  (forall (w : World) x, R w (step_outside x e w)) -> preserves R (emit e).
Proof. intros He w. apply He. Qed.

Lemma preserves_ask A (c : call A) : preserves R (ask c).
Proof.
  intros w. unfold ask. destruct (respond c (outside w)) as [a x]. apply frame_call.
Qed.

Lemma preserves_bind A B (m : M A) (k : A -> M B) :
  preserves R m -> (forall a, preserves R (k a)) -> preserves R (bind m k).
Proof.
  intros Hm Hk w. unfold bind. specialize (Hm w).
  destruct (m w) as [[a| | |] w1]; cbn in *; try exact Hm.
  eapply frame_trans; [exact Hm|apply Hk].
Qed.

Lemma preserves_defer A (cleanup : M unit) (body : M A) :
  preserves R cleanup -> preserves R body -> preserves R (defer cleanup body).
Proof.
  intros Hc Hb w. unfold defer. specialize (Hb w).
  destruct (body w) as [[a| | |] w1]; cbn in *; try exact Hb;
    (eapply frame_trans; [exact Hb|apply Hc]).
Qed.

Lemma preserves_orReturnf A prefix (m : M (answer A)) :
  preserves R m -> preserves R (orReturnf prefix m).
Proof.
  intros Hm. apply preserves_bind; [exact Hm|].
  intros [a|e]; [apply preserves_ret|apply preserves_raise].
Qed.

Lemma preserves_orReturn A (m : M (answer A)) :
  preserves R m -> preserves R (orReturn m).
Proof.
  intros Hm. apply preserves_bind; [exact Hm|].
  intros [a|e]; [apply preserves_ret|apply preserves_raise].
Qed.

Lemma preserves_orFatalf A prefix (m : M (answer A)) :
  preserves R m -> preserves R (orFatalf prefix m).
Proof.
  intros Hm. apply preserves_bind; [exact Hm|].
  intros [a|e]; [apply preserves_ret|apply preserves_log_Fatalf].
Qed.

Lemma preserves_errorOf A (m : M A) :
  preserves R m -> preserves R (errorOf m).
Proof.
  intros Hm w. unfold errorOf. specialize (Hm w).
  destruct (m w) as [[a| | |] w1]; exact Hm.
Qed.

Lemma preserves_writeFile path data : preserves R (writeFile path data).
Proof. intros w. apply frame_files. Qed.

Lemma preserves_theContext : preserves R theContext.
Proof.
  apply preserves_bind; [apply preserves_gets|].
  intros [h|]; [apply preserves_ret|apply preserves_panic].
Qed.

Lemma preserves_anyVisible page selectors : preserves R (anyVisible page selectors).
Proof.
  induction selectors as [|s rest IH]; cbn [anyVisible].
  - apply preserves_ret.
  - apply preserves_bind; [apply preserves_ask|].
    intros [|]; [apply preserves_ret|exact IH].
Qed.

Lemma preservesUnlessVal_bind A B (m : M A) (k : A -> M B) :
  preserves R m -> (forall a, preservesUnlessVal R (k a)) ->
  preservesUnlessVal R (bind m k).
Proof.
  intros Hm Hk w. unfold bind. specialize (Hm w).
  destruct (m w) as [[a| | |] w1]; cbn in *; try (right; exact Hm).
  destruct (Hk a w1) as [Hv|Hr]; [left; exact Hv|].
  right. eapply frame_trans; [exact Hm|exact Hr].
Qed.

Lemma preservesUnlessVal_defer A (cleanup : M unit) (body : M A) :
  preserves R cleanup -> preservesUnlessVal R body ->
  preservesUnlessVal R (defer cleanup body).
Proof.
  intros Hc Hb w. unfold defer. specialize (Hb w).
  destruct (body w) as [[a| | |] w1]; cbn in *.
  - left. eauto.
  - destruct Hb as [[a Ha]|Hb]; [discriminate|].
    right. eapply frame_trans; [exact Hb|apply Hc].
  - destruct Hb as [[a Ha]|Hb]; [discriminate|].
    right. eapply frame_trans; [exact Hb|apply Hc].
  - destruct Hb as [[a Ha]|Hb]; [discriminate|]. right. exact Hb.
Qed.

Lemma preservesUnlessVal_val A (m : M A) :
  (forall w, exists a, fst (m w) = Val a) -> preservesUnlessVal R m.
Proof. intros Hm w. left. apply Hm. Qed.

End Frame.

Create HintDb frame.

#[local] Hint Resolve preserves_ret preserves_raise preserves_panic
  preserves_log_Fatalf preserves_gets preserves_ask preserves_orReturnf
  preserves_orReturn preserves_orFatalf preserves_errorOf preserves_writeFile
  preserves_theContext preserves_anyVisible : frame.

Section Relations.
Context `{Outside}.

#[local] Instance sameSession_frame : FrameRel sameSession.
Proof.
  split; unfold sameSession.
  - tauto.
  - intros w1 w2 w3 (?&?&?&?) (?&?&?&?). repeat split; congruence.
  - intros; cbn; tauto.
  - intros; cbn; tauto.
Qed.

#[local] Instance sameEmail_frame : FrameRel sameEmail.
Proof.
  split; unfold sameEmail.
  - tauto.
  - intros w1 w2 w3 (?&?) (?&?). split; congruence.
  - intros; cbn; tauto.
  - intros; cbn; tauto.
Qed.

End Relations.

#[local] Existing Instances sameSession_frame sameEmail_frame.

Ltac by_class := try (solve [typeclasses eauto | assumption]).

(** Goals [preserves R m] for the straight-line parts of the service. *)
Ltac frame :=
  repeat first
    [ solve [eauto with frame typeclass_instances]
    | apply preserves_bind; by_class; [|intros ?]
    | apply preserves_defer; by_class
    | apply preserves_orReturnf; by_class
    | apply preserves_orReturn; by_class
    | apply preserves_errorOf; by_class
    | match goal with
      | |- preserves _ (if ?b then _ else _) => destruct b
      | |- preserves _ (match ?x with _ => _ end) => destruct x
      end ].

Section LoginFrame.
Context `{Outside} `{NetURL}.
Context (R : World -> World -> Prop) `{!FrameRel R}.
Hypothesis R_lock : forall (w : World) x, R w (step_outside x ELock w).
Hypothesis R_unlock : forall (w : World) x, R w (step_outside x EUnlock w).

(** Whatever [performLogin] does before it sets the logged-in flag respects
    [R]; and it sets the flag only on the way to returning nil. *)
Lemma performLogin_unlessVal email password :
  preservesUnlessVal R (performLogin email password).
Proof.
  unfold performLogin.
  apply preservesUnlessVal_bind; by_class; [apply preserves_emit, R_lock|intros _].
  apply preservesUnlessVal_defer; by_class; [apply preserves_emit, R_unlock|].
  apply preservesUnlessVal_bind; by_class; [frame|intros c].
  apply preservesUnlessVal_bind; by_class; [frame|intros page].
  apply preservesUnlessVal_defer; by_class; [frame|].
  repeat (apply preservesUnlessVal_bind; by_class; [solve [frame]|intros ?]).
  apply preservesUnlessVal_val. intros w. eexists. reflexivity.
Qed.

End LoginFrame.

Section LoginEmailFrame.
Context `{Outside} `{NetURL}.
Context (R : World -> World -> Prop) `{!FrameRel R}.
Hypothesis R_lock : forall (w : World) x, R w (step_outside x ELock w).
Hypothesis R_unlock : forall (w : World) x, R w (step_outside x EUnlock w).
Hypothesis R_flag : forall (w : World) v, R w (set_isLoggedIn v w).

Lemma performLogin_preserves email password :
  preserves R (performLogin email password).
Proof.
  unfold performLogin.
  apply preserves_bind; by_class; [apply preserves_emit, R_lock|intros _].
  apply preserves_defer; by_class; [apply preserves_emit, R_unlock|].
  apply preserves_bind; by_class; [frame|intros c].
  apply preserves_bind; by_class; [frame|intros page].
  apply preserves_defer; by_class; [frame|].
  repeat (apply preserves_bind; by_class; [solve [frame]|intros ?]).
  apply preserves_bind; by_class; [apply preserves_modify; intros w; apply R_flag|intros _].
  frame.
Qed.

End LoginEmailFrame.

(** ** Login *)

Section Login.
Context `{Outside} `{NetURL}.

Lemma snd_errorOf A (m : M A) w : snd (errorOf m w) = snd (m w).
Proof. unfold errorOf. now destruct (m w) as [[a| | |] w1]. Qed.

Lemma snd_bind_pure A B (m : M A) (k : A -> M B) w :
  (forall a w1, snd (k a w1) = w1) -> snd (bind m k w) = snd (m w).
Proof.
  intros Hk. unfold bind. destruct (m w) as [[a| | |] w1]; cbn; auto.
Qed.

(** [loginHandler] on a decoded POST: store the email, then log in. *)
Lemma loginHandler_post (w : World) (e p : string) :
  loginHandler (postLogin e p) w
  = bind (errorOf (performLogin (effectiveEmail e) (effectivePassword p)))
      (fun err =>
         match err with
         | Failed msg => ret (loginFailure msg)
         | Done _ =>
             ret (jsonResponse (LoginJSON {| l_Success := true;
                                             l_Message := "Login successful";
                                             l_Error := "" |}))
         end)
      (storeEmail (effectiveEmail e) w).
Proof.
  unfold loginHandler, postLogin. cbn [Method Body lr_Email lr_Password negb].
  change (String.eqb "POST" "POST") with true. cbn [negb].
  unfold bind at 1. cbn [emit]. unfold bind at 1. cbn [modify].
  unfold bind at 1. cbn [emit].
  replace (step_outside _ EUnlock _) with (storeEmail (effectiveEmail e) w).
  - destruct e, p; reflexivity.
  - destruct w. unfold storeEmail, logged, step_outside, set_currentUserEmail. cbn.
    rewrite <- app_assoc. destruct e; reflexivity.
Qed.

(** C4. When [performLogin] returns an error, the logged-in flag and the
    browser context reference are what they were, and [loginHandler]
    answers with that error in its JSON body. *)
Theorem failed_login_is_atomic (w : World) (email password err : string) :
  fst (performLogin email password w) = Raise err ->
  isLoggedIn (snd (performLogin email password w)) = isLoggedIn w
  /\ browserContext (snd (performLogin email password w)) = browserContext w
  /\ forall (w0 : World) (e p : string),
       effectiveEmail e = email -> effectivePassword p = password ->
       storeEmail email w0 = w ->
       loginHandler (postLogin e p) w0
         = (Val (loginFailure err), snd (performLogin email password w))
       /\ isLoggedIn (snd (loginHandler (postLogin e p) w0)) = isLoggedIn w0
       /\ browserContext (snd (loginHandler (postLogin e p) w0)) = browserContext w0.
Proof.
  intros Herr.
  assert (Hs : sameSession w (snd (performLogin email password w))).
  { destruct (performLogin_unlessVal sameSession) with (email := email)
      (password := password) (w := w) as [[a Ha]|Hs]; try exact Hs.
    - intros; cbn; unfold sameSession; cbn; tauto.
    - intros; cbn; unfold sameSession; cbn; tauto.
    - congruence. }
  destruct Hs as (_ & Hc & Hl & _).
  split; [exact Hl|]. split; [exact Hc|].
  intros w0 e p <- <- <-.
  assert (Hh : loginHandler (postLogin e p) w0
               = (Val (loginFailure err),
                  snd (performLogin (effectiveEmail e) (effectivePassword p)
                         (storeEmail (effectiveEmail e) w0)))).
  { rewrite loginHandler_post. unfold bind, errorOf.
    destruct (performLogin _ _ _) as [r w1]. cbn in Herr. subst r. reflexivity. }
  rewrite Hh. cbn [snd]. rewrite Hl, Hc. repeat split.
Qed.

(** C10. [loginHandler] stores the email of the request (or the default)
    before it logs in, and nothing afterwards touches it: whatever the
    outcome of the login, [currentUserEmail] ends as that email. *)
Theorem login_overwrites_email (w : World) (e p : string) :
  snd (loginHandler (postLogin e p) w)
    = snd (performLogin (effectiveEmail e) (effectivePassword p)
             (storeEmail (effectiveEmail e) w))
  /\ currentUserEmail (storeEmail (effectiveEmail e) w) = effectiveEmail e
  /\ currentUserEmail (snd (loginHandler (postLogin e p) w)) = effectiveEmail e.
Proof.
  assert (Hw : snd (loginHandler (postLogin e p) w)
    = snd (performLogin (effectiveEmail e) (effectivePassword p)
             (storeEmail (effectiveEmail e) w))).
  { rewrite loginHandler_post, snd_bind_pure, snd_errorOf; [reflexivity|].
    intros [a|msg] w1; reflexivity. }
  split; [exact Hw|]. split; [reflexivity|].
  rewrite Hw.
  destruct (performLogin_preserves sameEmail) with (email := effectiveEmail e)
    (password := effectivePassword p) (w := storeEmail (effectiveEmail e) w)
    as [Hm _]; try exact Hm;
    intros; cbn; unfold sameEmail; cbn; tauto.
Qed.

End Login.

(** ** Symbolic runs *)

(** Unfolds the monad and the state, leaving library functions alone. *)
Ltac exec_in H :=
  cbv beta iota zeta delta
    [bind ret raise panic log_Fatalf gets modify emit ask defer orReturnf
     orReturn orFatalf errorOf os_Stat os_Open os_Remove writeFile theContext
     theBrowser createNewContext anyVisible
     browser browserContext isLoggedIn currentUserEmail environ files outside
     trace set_browser set_browserContext set_isLoggedIn set_currentUserEmail
     set_files step_outside logged fst snd negb
     successSelectors errorSelectors] in H.

Ltac exec_in_goal :=
  cbv beta iota zeta delta
    [bind ret raise panic log_Fatalf gets modify emit ask defer orReturnf
     orReturn orFatalf errorOf os_Stat os_Open os_Remove writeFile theContext
     theBrowser createNewContext anyVisible
     browser browserContext isLoggedIn currentUserEmail environ files outside
     trace set_browser set_browserContext set_isLoggedIn set_currentUserEmail
     set_files step_outside logged fst snd negb
     successSelectors errorSelectors].

(** Answers the next call of the run in [H]. *)
Ltac answer_in H :=
  match type of H with
  | context [respond ?c ?x] =>
      let a := fresh "a" in
      let x' := fresh "x" in
      destruct (respond c x) as [a x'];
      lazymatch type of a with
      | answer _ => destruct a
      | bool => destruct a
      | _ => idtac
      end;
      repeat match goal with u : unit |- _ => destruct u end;
      exec_in H
  end.

Ltac finish_in H := inversion H; subst; clear H.

(** ** Startup *)

Ltac no_context :=
  cbn; eexists; split; [now rewrite <- ?app_assoc|reflexivity].

Section Startup.
Context `{Outside}.

(** What [main] does once Playwright runs and the browser is launched, by
    the answers to its requests for a context. *)
Lemma main_serves (w : World) (x1 x2 : ext) (b : handle) :
  let path := getStorageStatePath (environ w) in
  let w' := snd (main w) in
  respond Playwright_Run (outside w) = (Done tt, x1) ->
  respond (Chromium_Launch launchOptions) x1 = (Done b, x2) ->
  (forall c x3,
     is_Some (files w !! path) ->
     respond (NewContext b (storedContextOptions path)) x2 = (Done c, x3) ->
     fst (main w) = Val tt
     /\ browser w' = Some b /\ browserContext w' = Some c
     /\ isLoggedIn w' = true
     /\ trace w' = trace w ++ startedFromStorage path b c)
  /\ (forall err c x3 x4,
        is_Some (files w !! path) ->
        respond (NewContext b (storedContextOptions path)) x2 = (Failed err, x3) ->
        respond (NewContext b freshContextOptions) x3 = (Done c, x4) ->
        fst (main w) = Val tt
        /\ browser w' = Some b /\ browserContext w' = Some c
        /\ isLoggedIn w' = false
        /\ trace w' = trace w ++ startedAfterLoadFailure path err b c)
  /\ (forall c x3,
        files w !! path = None ->
        respond (NewContext b freshContextOptions) x2 = (Done c, x3) ->
        fst (main w) = Val tt
        /\ browser w' = Some b /\ browserContext w' = Some c
        /\ isLoggedIn w' = false
        /\ trace w' = trace w ++ startedFresh path b c).
Proof.
  intros path w' Hrun Hlaunch. subst path w'.
  destruct w as [b0 c0 l0 e0 env fs x0 tr].
  cbn [environ files trace outside] in *.
  unfold main. exec_in_goal. rewrite Hrun. exec_in_goal.
  rewrite Hlaunch. exec_in_goal.
  split; [|split].
  - intros c x3 Hfile Hnew.
    rewrite (bool_decide_eq_true_2 _ Hfile). rewrite Hnew.
    unfold startedFromStorage. rewrite <- !app_assoc. repeat split.
  - intros err c x3 x4 Hfile Hnew Hfresh.
    rewrite (bool_decide_eq_true_2 _ Hfile). rewrite Hnew. exec_in_goal.
    rewrite Hfresh. unfold startedAfterLoadFailure. rewrite <- !app_assoc.
    repeat split.
  - intros c x3 Hnone Hfresh.
    assert (Habsent : ~ is_Some (fs !! getStorageStatePath env)).
    { rewrite Hnone. intros [v Hv]. discriminate Hv. }
    rewrite (bool_decide_eq_false_2 _ Habsent). exec_in_goal.
    rewrite Hfresh. unfold startedFresh. rewrite <- !app_assoc. repeat split.
Qed.

(** C7. Once Playwright runs and the browser is launched, [main] serves
    whenever the browser gives it a context.  If the storage-state file
    exists and a context is created from it, the flag is set to true and
    nothing has happened but the launch, the look at the file and that
    creation: no login.  If the file is absent, or the browser refused
    the stored state, the context is created with the fixed fingerprint,
    spelled out below, and the flag is set to false.  Each time
    [browserContext] holds the context created, and it is the only one;
    and [main] ends in no other way than these three or by exiting, no
    context created. *)
Theorem startup_session (w : World) :
  let path := getStorageStatePath (environ w) in
  let w' := snd (main w) in
  (forall (x1 x2 : ext) (b : handle),
     respond Playwright_Run (outside w) = (Done tt, x1) ->
     respond (Chromium_Launch launchOptions) x1 = (Done b, x2) ->
     (forall c x3,
        is_Some (files w !! path) ->
        respond (NewContext b (storedContextOptions path)) x2 = (Done c, x3) ->
        fst (main w) = Val tt
        /\ browser w' = Some b /\ browserContext w' = Some c
        /\ isLoggedIn w' = true
        /\ trace w' = trace w ++ startedFromStorage path b c)
     /\ (forall err c x3 x4,
           is_Some (files w !! path) ->
           respond (NewContext b (storedContextOptions path)) x2 = (Failed err, x3) ->
           respond (NewContext b freshContextOptions) x3 = (Done c, x4) ->
           fst (main w) = Val tt
           /\ browser w' = Some b /\ browserContext w' = Some c
           /\ isLoggedIn w' = false
           /\ trace w' = trace w ++ startedAfterLoadFailure path err b c)
     /\ (forall c x3,
           files w !! path = None ->
           respond (NewContext b freshContextOptions) x2 = (Done c, x3) ->
           fst (main w) = Val tt
           /\ browser w' = Some b /\ browserContext w' = Some c
           /\ isLoggedIn w' = false
           /\ trace w' = trace w ++ startedFresh path b c))
  /\ freshContextOptions
     = {| StorageStatePath := None;
          UserAgent := Some "Mozilla/5.0 (Windows NT 10.0; Win64; x64) AppleWebKit/537.36 (KHTML, like Gecko) Chrome/120.0.0.0 Safari/537.36";
          Viewport := Some (1920, 1080);
          Locale := Some "en-US";
          TimezoneId := Some "America/New_York";
          ExtraHttpHeaders := [("Accept-Language", "en-US,en;q=0.9")] |}
  /\ match fst (main w) with
     | Val _ =>
         exists (b c : handle) (evs : list event),
           trace w' = trace w ++ evs
           /\ createdContexts evs = [c]
           /\ browserContext w' = Some c
           /\ ((is_Some (files w !! path)
                /\ evs = startedFromStorage path b c /\ isLoggedIn w' = true)
               \/ (files w !! path = None
                   /\ evs = startedFresh path b c /\ isLoggedIn w' = false)
               \/ (is_Some (files w !! path)
                   /\ (exists err, evs = startedAfterLoadFailure path err b c)
                   /\ isLoggedIn w' = false))
     | Exit _ =>
         exists evs : list event,
           trace w' = trace w ++ evs /\ createdContexts evs = []
     | _ => False
     end.
Proof.
  intros path w'.
  split; [intros x1 x2 b Hrun Hlaunch; exact (main_serves w x1 x2 b Hrun Hlaunch)|].
  split; [reflexivity|]. subst w'.
  destruct (main w) as [r w'] eqn:Hrun.
  destruct w as [b0 c0 l0 e0 env fs x0 tr].
  cbn [environ files trace fst snd] in *. subst path.
  unfold main in Hrun. exec_in Hrun.
  answer_in Hrun; [|finish_in Hrun; no_context].
  answer_in Hrun; [|finish_in Hrun; no_context].
  destruct (bool_decide (is_Some (fs !! getStorageStatePath env))) eqn:Hfound.
  - apply bool_decide_eq_true in Hfound.
    answer_in Hrun.
    + finish_in Hrun. cbn. eexists _, _, _. split; [now rewrite <- !app_assoc|].
      split; [reflexivity|]. split; [reflexivity|]. left. repeat split; auto.
    + answer_in Hrun; finish_in Hrun; [|no_context].
      cbn. eexists _, _, _. split; [now rewrite <- !app_assoc|].
      split; [reflexivity|]. split; [reflexivity|]. right. right. repeat split; eauto.
  - apply bool_decide_eq_false in Hfound.
    answer_in Hrun; finish_in Hrun; [|no_context].
    cbn. eexists _, _, _. split; [now rewrite <- !app_assoc|].
    split; [reflexivity|]. split; [reflexivity|]. right. left.
    split; [|split; reflexivity]. destruct (fs !! getStorageStatePath env) eqn:E; [|reflexivity].
    exfalso. apply Hfound. eauto.
Qed.

End Startup.

(** One step of a symbolic run: an answer of the outside world, a test, or
    a lookup in the file system. *)
Ltac step_in H :=
  first
    [ answer_in H
    | match type of H with
      | context [if ?b then _ else _] => destruct b eqn:?; exec_in H
      end
    | match type of H with
      | context [match ?o with Some _ => _ | None => _ end] =>
          destruct o eqn:?; exec_in H
      end
    | match type of H with
      | context [let (_, _) := ?p in _] => is_var p; destruct p; exec_in H
      end ].

(** ** The download pipeline *)

Section Pipeline.
Context `{Outside}.

Lemma blocked_title t :
  t = "Access Denied" \/ t = "Just a moment..." ->
  String.eqb t "Access Denied" || String.eqb t "Just a moment..." = true.
Proof. intros [->| ->]; reflexivity. Qed.

(** C6. A download run that reads one of the two interstitial titles ends
    with the blocked error; it never asks whether the download button is
    visible, and the object store is never called. *)
Theorem blocked_page_aborts (w : World) (targetURL r2Key title : string) :
  trace w = [] ->
  In (Some (Done title))
     (map titleRead (trace (snd (processDownload targetURL r2Key w)))) ->
  title = "Access Denied" \/ title = "Just a moment..." ->
  fst (runDownload targetURL w) = Raise "page blocked by anti-bot protection"
  /\ (forall q, ~ In (Some q)
        (map visibleQuery (trace (snd (processDownload targetURL r2Key w)))))
  /\ List.filter isUploadCall
       (trace (snd (processDownload targetURL r2Key w))) = [].
Proof.
  intros Htr Hin Hblocked. apply blocked_title in Hblocked.
  destruct (processDownload targetURL r2Key w) as [r w'] eqn:Hrun.
  destruct (runDownload targetURL w) as [r1 w1] eqn:Hdl.
  destruct w as [b0 c0 l0 e0 env fs x0 tr].
  cbn [trace fst snd] in *. subst tr.
  unfold processDownload, uploadToR2, runDownload in Hrun.
  unfold runDownload in Hdl.
  exec_in Hrun. exec_in Hdl.
  repeat step_in Hrun.
  all: finish_in Hrun; finish_in Hdl.
  all: cbn [map titleRead app In trace] in Hin.
  all: repeat (destruct Hin as [Hin|Hin]); try discriminate Hin; try contradiction.
  all: injection Hin as ->.
  all: try congruence.
  all: split; [reflexivity|split; [|reflexivity]].
  all: intros q Hq; cbn [map visibleQuery app In trace] in Hq.
  all: repeat (destruct Hq as [Hq|Hq]); try discriminate Hq; try contradiction.
Qed.


Lemma processDownload_unfold (w : World) (targetURL r2Key : string) :
  processDownload targetURL r2Key w
  = match runDownload targetURL w with
    | (Val localFilePath, w1) =>
        match uploadToR2 targetURL r2Key w1 with
        | (Val _, w2) => os_Remove localFilePath w2
        | (Raise _, w2) => (Val tt, w2)
        | (Panic e, w2) => (Panic e, w2)
        | (Exit e, w2) => (Exit e, w2)
        end
    | (Raise _, w1) => (Val tt, w1)
    | (Panic e, w1) => (Panic e, w1)
    | (Exit e, w1) => (Exit e, w1)
    end.
Proof.
  unfold processDownload, bind, errorOf.
  destruct (runDownload targetURL w) as [[p| | |] w1]; try reflexivity.
  destruct (uploadToR2 targetURL r2Key w1) as [[u| | |] w2]; reflexivity.
Qed.

(** A download that returns a path has staged a file there and removed
    nothing. *)
Lemma runDownload_stages (w : World) (targetURL path : string) :
  trace w = [] ->
  fst (runDownload targetURL w) = Val path ->
  removals path (trace (snd (runDownload targetURL w))) = 0
  /\ is_Some (files (snd (runDownload targetURL w)) !! path).
Proof.
  intros Htr Hdl.
  destruct (runDownload targetURL w) as [r1 w1] eqn:Hrd.
  destruct w as [b0 c0 l0 e0 env fs x0 tr].
  cbn [trace fst snd] in *. subst tr r1.
  unfold runDownload in Hrd. exec_in Hrd.
  repeat step_in Hrd.
  all: finish_in Hrd.
  cbn [trace files]. split; [reflexivity|].
  rewrite lookup_insert_eq. eauto.
Qed.

(** The upload removes nothing, leaves the file system alone, and either
    returns nil or an error. *)
Lemma uploadToR2_keeps_files (w : World) (localPath objectKey path : string) :
  removals path (trace (snd (uploadToR2 localPath objectKey w)))
    = removals path (trace w)
  /\ files (snd (uploadToR2 localPath objectKey w)) = files w
  /\ match fst (uploadToR2 localPath objectKey w) with
     | Val _ | Raise _ => True
     | _ => False
     end.
Proof.
  destruct (uploadToR2 localPath objectKey w) as [r w'] eqn:Hup.
  destruct w as [b0 c0 l0 e0 env fs x0 tr].
  unfold uploadToR2 in Hup. exec_in Hup.
  repeat step_in Hup.
  all: finish_in Hup.
  all: cbn [trace files fst snd]; unfold removals.
  all: rewrite ?List.filter_app; cbn [List.filter isRemoveOf];
    rewrite ?app_nil_r; auto.
Qed.

(** C1, as the latest variant has it.  After a download that staged a
    file, the file is removed once when the upload succeeds; when the
    upload fails the run returns early: nothing is removed and the staged
    file stays. *)
Theorem staged_file_cleanup (w : World) (targetURL r2Key path : string) :
  trace w = [] ->
  fst (runDownload targetURL w) = Val path ->
  let w1 := snd (runDownload targetURL w) in
  let w' := snd (processDownload targetURL r2Key w) in
  match fst (uploadToR2 targetURL r2Key w1) with
  | Val _ => removals path (trace w') = 1 /\ files w' !! path = None
  | Raise _ => removals path (trace w') = 0 /\ is_Some (files w' !! path)
  | _ => False
  end.
Proof.
  intros Htr Hdl w1 w'. subst w1 w'.
  destruct (runDownload_stages w targetURL path Htr Hdl) as [Hrm Hfile].
  rewrite processDownload_unfold.
  destruct (runDownload targetURL w) as [r1 w1].
  cbn [fst snd] in *. subst r1.
  destruct (uploadToR2_keeps_files w1 targetURL r2Key path) as (Hrm2 & Hfs & Hres).
  destruct (uploadToR2 targetURL r2Key w1) as [[u| | |] w2]; cbn [fst snd] in *;
    try contradiction.
  - split; [|apply lookup_delete_eq].
    unfold removals in *. cbn [os_Remove snd trace set_files step_outside].
    rewrite List.filter_app, length_app, Hrm2, Hrm.
    cbn [List.filter isRemoveOf]. now rewrite String.eqb_refl.
  - split; [congruence|]. now rewrite Hfs.
Qed.

End Pipeline.

(** ** The temporary-file variant *)

Module TempVariantFacts.
Import TempVariant.

Ltac exec_tmp_in H :=
  cbv beta iota zeta delta [rewrapf os_CreateTemp uploadToR2] in H; exec_in H.

Section Cleanup.
Context `{Outside}.

(** The temporary-file variant removes the file it stages exactly once,
    whether staging and upload succeed or fail. *)
Lemma staged_file_removed_once (w : World) (targetURL path : string) :
  trace w = [] ->
  In (Some (Done path))
     (map tempCreated (trace (snd (processDownload targetURL w)))) ->
  removals path (trace (snd (processDownload targetURL w))) = 1
  /\ files (snd (processDownload targetURL w)) !! path = None.
Proof.
  intros Htr Hin.
  destruct (processDownload targetURL w) as [r w'] eqn:Hrun.
  destruct w as [b0 c0 l0 e0 env fs x0 tr].
  cbn [trace fst snd] in *. subst tr.
  unfold processDownload, runDownload in Hrun. exec_tmp_in Hrun.
  repeat (step_in Hrun; exec_tmp_in Hrun).
  all: finish_in Hrun.
  all: cbn [map tempCreated app In trace] in Hin.
  all: repeat (destruct Hin as [Hin|Hin]); try discriminate Hin; try contradiction.
  all: injection Hin as ->.
  all: unfold removals; cbn [trace files app List.filter isRemoveOf length].
  all: rewrite String.eqb_refl; cbn [length].
  all: split; [reflexivity|apply lookup_delete_eq].
Qed.

End Cleanup.
End TempVariantFacts.

(** ** Classification of the login outcome *)

Section Classification.
Context `{Outside}.




End Classification.

(** ** Use of the mutex by the service *)

Section LockDiscipline.
Context `{Outside} `{NetURL}.

(** [performLogin] is one write-locked section, whatever happens in it. *)
Lemma performLogin_section (w : World) (email password : string) :
  isCriticalSection (trace (snd (performLogin email password (clearTrace w)))) = true.
Proof.
  destruct (performLogin email password (clearTrace w)) as [r w'] eqn:Hrun.
  destruct w as [b0 c0 l0 e0 env fs x0 tr].
  unfold performLogin, clearTrace in Hrun. exec_in Hrun.
  repeat step_in Hrun.
  all: finish_in Hrun; reflexivity.
Qed.

(** A login request: the email is stored in a section of its own, then
    comes the section of [performLogin]; nothing happens outside. *)
Lemma loginHandler_sections (r : Request LoginRequest) (w : World) :
  sectionsFrom false (eventsOf (LoginJob r w)) = true
  /\ bracketedFrom Free (eventsOf (LoginJob r w)) = true.
Proof.
  unfold eventsOf.
  destruct (loginHandler r (clearTrace w)) as [resp w'] eqn:Hrun.
  destruct w as [b0 c0 l0 e0 env fs x0 tr]. destruct r as [method body].
  unfold loginHandler, performLogin, clearTrace in Hrun.
  cbn [Method Body] in Hrun. exec_in Hrun.
  repeat step_in Hrun.
  all: finish_in Hrun; split; reflexivity.
Qed.

Lemma downloadHandler_bracketed (r : Request DownloadRequest) (w : World) :
  bracketedFrom Free (eventsOf (DownloadJob r w)) = true.
Proof.
  unfold eventsOf.
  destruct (downloadHandler r (clearTrace w)) as [resp w'] eqn:Hrun.
  destruct w as [b0 c0 l0 e0 env fs x0 tr]. destruct r as [method body].
  unfold downloadHandler, clearTrace in Hrun.
  cbn [Method Body] in Hrun. exec_in Hrun.
  repeat step_in Hrun.
  all: finish_in Hrun; reflexivity.
Qed.

Lemma statusHandler_bracketed (r : Request unit) (w : World) :
  bracketedFrom Free (eventsOf (StatusJob r w)) = true.
Proof.
  unfold eventsOf.
  destruct (statusHandler r (clearTrace w)) as [resp w'] eqn:Hrun.
  destruct w as [b0 c0 l0 e0 env fs x0 tr]. destruct r as [method body].
  unfold statusHandler, clearTrace in Hrun.
  cbn [Method Body] in Hrun. exec_in Hrun.
  repeat step_in Hrun.
  all: finish_in Hrun; reflexivity.
Qed.

Lemma processDownload_bracketed (targetURL r2Key : string) (w : World) :
  bracketedFrom Free (eventsOf (TransferJob targetURL r2Key w)) = true.
Proof.
  unfold eventsOf.
  destruct (processDownload targetURL r2Key (clearTrace w)) as [resp w'] eqn:Hrun.
  destruct w as [b0 c0 l0 e0 env fs x0 tr].
  unfold processDownload, uploadToR2, runDownload, clearTrace in Hrun.
  exec_in Hrun.
  repeat step_in Hrun.
  all: finish_in Hrun; reflexivity.
Qed.

(** Every goroutine of the service brackets its use of the mutex. *)
Lemma eventsOf_bracketed (j : Job) : bracketedFrom Free (eventsOf j) = true.
Proof.
  destruct j.
  - apply loginHandler_sections.
  - apply downloadHandler_bracketed.
  - apply statusHandler_bracketed.
  - apply processDownload_bracketed.
Qed.

End LockDiscipline.

(** ** Mutual exclusion *)

Section Mutex.

Lemma holds_advance (t : Thread) (e : event) (rest : list event) :
  todo t = e :: rest ->
  holds (advance t) = hold (holds t) e /\ todo (advance t) = rest
  /\ past (advance t) ++ todo (advance t) = past t ++ todo t.
Proof.
  intros Ht. unfold advance, holds, heldOf. rewrite Ht. cbn [past todo].
  rewrite fold_left_app, <- app_assoc. repeat split.
Qed.

Ltac blia :=
  repeat match goal with
         | |- context [if ?b then _ else _] => destruct b
         | H : context [if ?b then _ else _] |- _ => destruct b
         end; lia.

Lemma countIf_insert (p : Held -> bool) (ts : list Thread) (i : nat) (t t' : Thread) :
  ts !! i = Some t ->
  countIf p (<[i := t']> ts) + (if p (holds t) then 1 else 0)
  = countIf p ts + (if p (holds t') then 1 else 0).
Proof.
  revert i. induction ts as [|u ts IH]; intros [|i] Hi; try discriminate.
  - cbn in Hi. injection Hi as ->. cbn. blia.
  - cbn in Hi. specialize (IH i Hi).
    change (<[S i := t']> (u :: ts)) with (u :: <[i := t']> ts).
    cbn [countIf]. blia.
Qed.

Lemma countIf_one (p : Held -> bool) (ts : list Thread) (i : nat) (t : Thread) :
  ts !! i = Some t -> p (holds t) = true -> 1 <= countIf p ts.
Proof.
  revert i. induction ts as [|u ts IH]; intros [|i] Hi Hp; try discriminate.
  - cbn in Hi. injection Hi as ->. cbn. rewrite Hp. lia.
  - cbn in Hi. cbn. specialize (IH i Hi Hp). blia.
Qed.

Lemma countIf_two (p : Held -> bool) (ts : list Thread) (i j : nat) (ti tj : Thread) :
  i <> j -> ts !! i = Some ti -> ts !! j = Some tj ->
  p (holds ti) = true -> p (holds tj) = true -> 2 <= countIf p ts.
Proof.
  revert i j. induction ts as [|u ts IH]; intros [|i] [|j] Hij Hi Hj Hpi Hpj;
    try discriminate; try congruence; cbn in Hi, Hj; cbn.
  - injection Hi as ->. rewrite Hpi.
    pose proof (countIf_one p ts j tj Hj Hpj). lia.
  - injection Hj as ->. rewrite Hpj.
    pose proof (countIf_one p ts i ti Hi Hpi). lia.
  - assert (Hne : i <> j) by congruence.
    pose proof (IH i j Hne Hi Hj Hpi Hpj). blia.
Qed.

Lemma countIf_spawn (p : Held -> bool) (progs : list (list event)) :
  p Free = false -> countIf p (map spawn progs) = 0.
Proof.
  intros Hp. induction progs as [|es progs IH]; [reflexivity|].
  cbn [map countIf]. change (holds (spawn es)) with Free. now rewrite Hp, IH.
Qed.

Lemma start_consistent (progs : list (list event)) :
  Forall (fun es => bracketedFrom Free es = true) progs ->
  consistent unlocked (map spawn progs).
Proof.
  intros Hb. split; [|split; [|split]].
  - apply Forall_map. eapply Forall_impl; [exact Hb|]. intros es Hes. exact Hes.
  - now apply countIf_spawn.
  - now apply countIf_spawn.
  - discriminate.
Qed.

Lemma step_consistent (c c' : RWMutex * list Thread) :
  step c c' -> consistent (fst c) (snd c) -> consistent (fst c') (snd c').
Proof.
  intros Hstep. destruct Hstep as [m m' ts i t e rest Hi Ht Hm].
  cbn [fst snd]. intros (Hbr & Hw & Hr & Hwr).
  assert (Hbt : bracketedFrom (holds t) (todo t) = true).
  { rewrite Forall_lookup in Hbr. exact (Hbr i t Hi). }
  destruct (holds_advance t e rest Ht) as (Hh & Htodo & _).
  pose proof (countIf_insert isWriting ts i t (advance t) Hi) as Cw.
  pose proof (countIf_insert isReading ts i t (advance t) Hi) as Cr.
  rewrite Hh in Cw, Cr. rewrite Ht in Hbt.
  split.
  { apply Forall_insert; [exact Hbr|]. rewrite Hh, Htodo.
    destruct e, (holds t); cbn in Hbt |- *; try discriminate; exact Hbt. }
  destruct m as [wr rd]. cbn [writer readers] in *.
  destruct e, (holds t); cbn in Hbt, Hm, Cw, Cr; try discriminate Hbt;
    destruct wr; cbn in Hm; try discriminate Hm;
    try (destruct rd; cbn in Hm; try discriminate Hm);
    injection Hm as <-; cbn [writer readers];
    repeat split; try lia; try discriminate;
    try (intros _; specialize (Hwr eq_refl); lia).
Qed.

Lemma step_tracks (progs : list (list event)) (c c' : RWMutex * list Thread) :
  step c c' -> tracks progs (snd c) -> tracks progs (snd c').
Proof.
  intros Hstep. destruct Hstep as [m m' ts i t e rest Hi Ht Hm].
  cbn [snd]. intros Htr j u Hj.
  destruct (decide (i = j)) as [->|Hne].
  - rewrite list_lookup_insert_eq in Hj by (eapply lookup_lt_Some; eauto).
    injection Hj as <-.
    destruct (holds_advance t e rest Ht) as (_ & _ & Hp). rewrite Hp. now apply Htr.
  - rewrite list_lookup_insert_ne in Hj by exact Hne. now apply Htr.
Qed.

Lemma start_tracks (progs : list (list event)) : tracks progs (map spawn progs).
Proof.
  intros i t Hi. rewrite list_lookup_fmap in Hi.
  destruct (progs !! i) as [es|]; [|discriminate].
  cbn in Hi. injection Hi as <-. reflexivity.
Qed.

Lemma reachable_invariant (progs : list (list event)) (c : RWMutex * list Thread) :
  Forall (fun es => bracketedFrom Free es = true) progs ->
  reachable progs c ->
  consistent (fst c) (snd c) /\ tracks progs (snd c).
Proof.
  intros Hb. unfold reachable. revert c.
  apply (rtc_ind_r (fun c => consistent (fst c) (snd c) /\ tracks progs (snd c))).
  - split; [now apply start_consistent|apply start_tracks].
  - intros c1 c2 _ Hstep [Hc Ht].
    split; [eapply step_consistent|eapply step_tracks]; eauto.
Qed.

(** While a goroutine holds the write lock, no other holds the mutex. *)
Lemma writer_excludes (m : RWMutex) (ts : list Thread) (i j : nat) (ti tj : Thread) :
  consistent m ts -> i <> j -> ts !! i = Some ti -> ts !! j = Some tj ->
  holds ti = Writing -> holds tj = Free.
Proof.
  intros (_ & Hw & Hr & Hwr) Hij Hi Hj Hti.
  assert (Hone : 1 <= countIf isWriting ts).
  { eapply countIf_one; [exact Hi|]. now rewrite Hti. }
  destruct (writer m); [|lia]. specialize (Hwr eq_refl).
  destruct (holds tj) eqn:Htj; [reflexivity| |].
  - pose proof (countIf_two isWriting ts i j ti tj Hij Hi Hj) as Htwo.
    rewrite Hti, Htj in Htwo. specialize (Htwo eq_refl eq_refl). lia.
  - pose proof (countIf_one isReading ts j tj Hj) as Hrd.
    rewrite Htj in Hrd. specialize (Hrd eq_refl). lia.
Qed.

(** Where a goroutine stands in a program made of write-locked sections. *)
Lemma sectionsFrom_app (before after : list event) (inside : bool) :
  sectionsFrom inside (before ++ after) = true ->
  sectionsFrom
    (isWriting (fold_left hold before (if inside then Writing else Free))) after
  = true.
Proof.
  revert inside. induction before as [|e before IH]; intros inside Hs.
  - cbn. now destruct inside.
  - cbn [app fold_left] in *. destruct e; cbn [sectionsFrom] in Hs; try discriminate.
    + apply andb_true_iff in Hs as [Hin Hs]. subst inside. cbn [hold]. exact (IH true Hs).
    + apply andb_true_iff in Hs as [Hin Hs]. apply negb_true_iff in Hin. subst inside.
      exact (IH true Hs).
    + apply andb_true_iff in Hs as [Hin Hs]. subst inside. exact (IH false Hs).
Qed.

Lemma perform_rtc (i : nat) (c : RWMutex * list Thread) : rtc step c (perform i c).
Proof.
  unfold perform. destruct c as [m ts]. cbn [fst snd].
  destruct (ts !! i) as [t|] eqn:Hi; [|apply rtc_refl].
  destruct (todo t) as [|e rest] eqn:Ht; [apply rtc_refl|].
  destruct (mutexStep e m) as [m'|] eqn:Hm; [|apply rtc_refl].
  apply rtc_once. econstructor; eauto.
Qed.

Lemma schedule_reachable (order : list nat) (progs : list (list event)) :
  reachable progs (schedule order progs).
Proof.
  unfold reachable, schedule.
  induction order as [|i order IH] using rev_ind; cbn.
  - apply rtc_refl.
  - rewrite fold_left_app. cbn. eapply rtc_trans; [exact IH|apply perform_rtc].
Qed.

End Mutex.

Section Exclusion.
Context `{Outside} `{NetURL}.

Lemma jobs_bracketed (jobs : list Job) :
  Forall (fun es => bracketedFrom Free es = true) (map eventsOf jobs).
Proof. apply Forall_map, Forall_forall. intros j _. apply eventsOf_bracketed. Qed.

(** C8. In every interleaving of goroutines of the service that the mutex
    admits: [performLogin] is one write-locked section; a login goroutine
    about to call the browser or to save the storage state holds the write
    lock; and while it holds it no other goroutine holds the mutex in any
    mode, and any other login goroutine has either finished or is still to
    take the lock. *)
Theorem logins_are_exclusive (jobs : list Job) (m : RWMutex) (ts : list Thread)
    (i : nat) (r : Request LoginRequest) (w : World) (ti : Thread) :
  reachable (map eventsOf jobs) (m, ts) ->
  jobs !! i = Some (LoginJob r w) ->
  ts !! i = Some ti ->
  (forall email password w0,
     isCriticalSection (trace (snd (performLogin email password (clearTrace w0))))
     = true)
  /\ (forall A (c : call A) (a : A) rest,
        todo ti = Ev c a :: rest -> holds ti = Writing)
  /\ (holds ti = Writing ->
      forall j tj, j <> i -> ts !! j = Some tj ->
        holds tj = Free
        /\ forall r' w', jobs !! j = Some (LoginJob r' w') ->
             todo tj = [] \/ exists rest, todo tj = ELock :: rest).
Proof.
  intros Hreach Hjob Hti.
  destruct (reachable_invariant _ _ (jobs_bracketed jobs) Hreach) as [Hcons Htracks].
  cbn [fst snd] in Hcons, Htracks.
  assert (Hsections : forall k rk wk tk,
             jobs !! k = Some (LoginJob rk wk) -> ts !! k = Some tk ->
             sectionsFrom (isWriting (holds tk)) (todo tk) = true).
  { intros k rk wk tk Hk Htk.
    pose proof (Htracks k tk Htk) as Hprog.
    rewrite list_lookup_fmap, Hk in Hprog.
    change (Some (eventsOf (LoginJob rk wk)) = Some (past tk ++ todo tk)) in Hprog.
    injection Hprog as Hprog.
    destruct (loginHandler_sections rk wk) as [Hs _].
    unfold eventsOf in Hs, Hprog. rewrite Hprog in Hs.
    exact (sectionsFrom_app (past tk) (todo tk) false Hs). }
  split; [intros; apply performLogin_section|]. split.
  - intros A c a rest Htodo.
    pose proof (Hsections i r w ti Hjob Hti) as Hs. rewrite Htodo in Hs.
    cbn [sectionsFrom] in Hs. apply andb_true_iff in Hs as [Hin _].
    now destruct (holds ti).
  - intros Hw j tj Hji Htj.
    assert (Hfree : holds tj = Free).
    { eapply (writer_excludes m ts i j); eauto. }
    split; [exact Hfree|].
    intros r' w' Hj'. pose proof (Hsections j r' w' tj Hj' Htj) as Hs.
    rewrite Hfree in Hs. cbn [isWriting] in Hs.
    destruct (todo tj) as [|e rest]; [now left|right].
    destruct e; cbn [sectionsFrom] in Hs; try discriminate. eauto.
Qed.

End Exclusion.

(** * More of the service *)

(** Ends a symbolic run: the result and the world it leaves replace their
    names. *)
Ltac done_in H :=
  let Hr := fresh "Hr" in
  let Hw := fresh "Hw" in
  pose proof (f_equal fst H) as Hr; pose proof (f_equal snd H) as Hw;
  clear H; cbn [fst snd] in Hr, Hw; destruct Hr, Hw.

Ltac among := repeat first [left; reflexivity | right].


(** ** Outcomes of a login *)

Section LoginOutcome.
Context `{Outside}.

(** What [performLogin] leaves behind. *)
Lemma performLogin_outcome (w : World) (email password : string) :
  let path := getStorageStatePath (environ w) in
  let w' := snd (performLogin email password w) in
  match fst (performLogin email password w) with
  | Val _ =>
      exists (c : handle) (state : string) (evs : list event),
        browserContext w = Some c
        /\ isLoggedIn w' = true
        /\ files w' = <[path := state]> (files w)
        /\ trace w' = trace w ++ evs
        /\ In (Some (c, path, Done state)) (map storageStateCall evs)
  | Raise _ =>
      files w' = files w /\ isLoggedIn w' = isLoggedIn w
      /\ is_Some (browserContext w)
  | Panic _ =>
      files w' = files w /\ isLoggedIn w' = isLoggedIn w
      /\ browserContext w = None
  | Exit _ => False
  end
  /\ browser w' = browser w /\ browserContext w' = browserContext w
  /\ currentUserEmail w' = currentUserEmail w /\ environ w' = environ w.
Proof.
  intros path w'. subst path w'.
  destruct (performLogin email password w) as [r w'] eqn:Hrun.
  destruct w as [b0 c0 l0 e0 env fs x0 tr].
  cbn [fst snd browser browserContext currentUserEmail environ files isLoggedIn
       trace].
  unfold performLogin in Hrun. exec_in Hrun.
  repeat step_in Hrun.
  all: done_in Hrun.
  all: cbn [browser browserContext currentUserEmail environ files isLoggedIn].
  all: split; [|repeat split].
  all: try (split; [reflexivity|split; [reflexivity|]]; solve [reflexivity|eauto]).
  all: eexists _, _, _; split; [reflexivity|]; split; [reflexivity|].
  all: split; [reflexivity|].
  all: cbn [trace]; rewrite <- ?app_assoc; split; [reflexivity|].
  all: cbn [map storageStateCall app In]; among.
Qed.


(** X1. [performLogin] writes the storage-state file exactly when it
    returns nil: then the file holds what the browser context handed over
    and the flag is true; when it returns an error or panics (which it
    does only without a browser context), the file system and the flag are
    as before.  It never exits the process and never touches the browser,
    the context, the stored email or the environment. *)
Theorem login_saves_session_iff_nil (w : World) (email password : string) :
  let path := getStorageStatePath (environ w) in
  let w' := snd (performLogin email password w) in
  match fst (performLogin email password w) with
  | Val _ =>
      exists (c : handle) (state : string) (evs : list event),
        browserContext w = Some c
        /\ isLoggedIn w' = true
        /\ files w' = <[path := state]> (files w)
        /\ trace w' = trace w ++ evs
        /\ In (Some (c, path, Done state)) (map storageStateCall evs)
  | Raise _ =>
      files w' = files w /\ isLoggedIn w' = isLoggedIn w
      /\ is_Some (browserContext w)
  | Panic _ =>
      files w' = files w /\ isLoggedIn w' = isLoggedIn w
      /\ browserContext w = None
  | Exit _ => False
  end
  /\ browser w' = browser w /\ browserContext w' = browserContext w
  /\ currentUserEmail w' = currentUserEmail w /\ environ w' = environ w.
Proof. exact (performLogin_outcome w email password). Qed.

End LoginOutcome.

(** ** The login and status endpoints *)

Section LoginEndpoint.
Context `{Outside} `{NetURL}.

Lemma loginHandler_decoded (method : string) (e p : string) :
  String.eqb method "POST" = true ->
  {| Method := method; Body := Some {| lr_Email := e; lr_Password := p |} |}
  = postLogin e p.
Proof. intros Hm. apply String.eqb_eq in Hm. now subst. Qed.

Lemma storeEmail_fields (email : string) (w : World) :
  browser (storeEmail email w) = browser w
  /\ browserContext (storeEmail email w) = browserContext w
  /\ isLoggedIn (storeEmail email w) = isLoggedIn w
  /\ environ (storeEmail email w) = environ w
  /\ files (storeEmail email w) = files w
  /\ currentUserEmail (storeEmail email w) = email.
Proof. repeat split. Qed.

(** What [loginHandler] answers, and what it leaves behind. *)
Lemma loginHandler_outcome (r : Request LoginRequest) (w : World) :
  let w' := snd (loginHandler r w) in
  match fst (loginHandler r w) with
  | Val resp =>
      (Method r <> "POST" /\ resp = methodNotAllowed /\ w' = w)
      \/ (Body r = None /\ resp = invalidLoginPayload /\ w' = w)
      \/ (exists state,
            resp = loginSuccess /\ isLoggedIn w' = true
            /\ files w' = <[getStorageStatePath (environ w) := state]> (files w))
      \/ (exists err,
            resp = loginFailure err /\ isLoggedIn w' = isLoggedIn w
            /\ files w' = files w)
  | Panic _ => browserContext w = None /\ isLoggedIn w' = isLoggedIn w
  | _ => False
  end.
Proof.
  intros w'. subst w'. destruct r as [method [[e p]|]].
  2:{ unfold loginHandler. cbn [Method Body].
      destruct (String.eqb method "POST") eqn:Hm; cbn [negb fst snd ret].
      - right. left. repeat split.
      - left. apply String.eqb_neq in Hm. repeat split. exact Hm. }
  destruct (String.eqb method "POST") eqn:Hm.
  2:{ unfold loginHandler. cbn [Method Body]. rewrite Hm. cbn [negb fst snd ret].
      left. apply String.eqb_neq in Hm. repeat split. exact Hm. }
  rewrite (loginHandler_decoded method e p Hm), loginHandler_post.
  pose proof (performLogin_outcome (storeEmail (effectiveEmail e) w)
                (effectiveEmail e) (effectivePassword p)) as Hout.
  cbv zeta in Hout. unfold bind, errorOf.
  destruct (performLogin _ _ _) as [[u|err|msg|msg] w1]; cbn [fst snd ret] in *.
  - destruct Hout as ((c & state & evs & _ & Hl & Hf & _) & _).
    right. right. left. exists state. repeat split; assumption.
  - destruct Hout as ((Hf & Hl & _) & _).
    right. right. right. exists err. repeat split; assumption.
  - destruct Hout as ((_ & Hl & Hc) & _). split; assumption.
  - destruct Hout as (Hx & _). exact Hx.
Qed.

(** X2. [loginHandler] answers every request that is not a POST with 405
    and every POST with 200, also when the body does not decode or the
    login fails; it reports success exactly when the flag has been set and
    the storage-state file written, and a failure leaves flag and files as
    they were.  It panics only without a browser context. *)
Theorem login_answers (r : Request LoginRequest) (w : World) :
  let w' := snd (loginHandler r w) in
  match fst (loginHandler r w) with
  | Val resp =>
      (StatusCode resp = if String.eqb (Method r) "POST" then 200 else 405)
      /\ match payload resp with
         | LoginJSON answer =>
             if l_Success answer then
               isLoggedIn w' = true
               /\ is_Some (files w' !! getStorageStatePath (environ w))
             else
               l_Error answer <> "" /\ isLoggedIn w' = isLoggedIn w
               /\ files w' = files w
         | PlainText _ => w' = w
         | _ => False
         end
  | Panic _ => browserContext w = None
  | _ => False
  end.
Proof.
  intros w'. subst w'. pose proof (loginHandler_outcome r w) as Hout.
  cbv zeta in Hout.
  assert (Hpost : fst (loginHandler r w) = Val methodNotAllowed
                  \/ String.eqb (Method r) "POST" = true).
  { unfold loginHandler. destruct (String.eqb (Method r) "POST"); [now right|now left]. }
  destruct (loginHandler r w) as [[resp|err|msg|msg] w1]; cbn [fst snd] in *;
    try contradiction; [|tauto].
  destruct Hout as [(Hm & -> & ->)|[(Hb & -> & ->)|[(state & -> & Hl & Hf)|(err & -> & Hl & Hf)]]].
  - apply String.eqb_neq in Hm. rewrite Hm. repeat split.
  - destruct Hpost as [Hp|Hp]; [discriminate|]. rewrite Hp.
    repeat split. discriminate.
  - destruct Hpost as [Hp|Hp]; [discriminate|]. rewrite Hp.
    cbn. repeat split; [exact Hl|]. rewrite Hf, lookup_insert_eq. eauto.
  - destruct Hpost as [Hp|Hp]; [discriminate|]. rewrite Hp.
    cbn. repeat split; try assumption. discriminate.
Qed.

Lemma statusHandler_get (w : World) :
  statusHandler getStatus w
  = (Val (jsonResponse (StatusJSON (isLoggedIn w) "ready")),
     logged [ERLock; ERUnlock] w).
Proof.
  destruct w as [b c l e env fs x tr].
  unfold statusHandler, getStatus. cbn [Method negb String.eqb Ascii.eqb Bool.eqb].
  cbv [logged bind emit gets ret defer step_outside]. cbn [fst snd trace].
  cbn [browser browserContext isLoggedIn currentUserEmail environ files outside trace].
  now rewrite <- app_assoc.
Qed.

(** X3. After a login request, [statusHandler] reports logged in when the
    login went through, and otherwise what held before the request: a
    failed login does not log a running session out.  The handler itself
    only takes and releases the read lock. *)
Theorem status_after_login (w : World) (e p : string) :
  let attempt :=
    performLogin (effectiveEmail e) (effectivePassword p)
      (storeEmail (effectiveEmail e) w) in
  let w1 := snd (loginHandler (postLogin e p) w) in
  statusHandler getStatus w1
  = (Val (jsonResponse
            (StatusJSON (if returned (fst attempt) then true else isLoggedIn w)
               "ready")),
     logged [ERLock; ERUnlock] w1).
Proof.
  intros attempt w1. rewrite statusHandler_get. do 3 f_equal.
  subst w1 attempt.
  pose proof (performLogin_outcome (storeEmail (effectiveEmail e) w)
                (effectiveEmail e) (effectivePassword p)) as Hout.
  cbv zeta in Hout.
  rewrite loginHandler_post, snd_bind_pure, snd_errorOf
    by (intros [a|msg] w2; reflexivity).
  destruct (performLogin _ _ _) as [[u|err|msg|msg] w2]; cbn [fst snd returned] in *.
  - destruct Hout as ((c & state & evs & _ & Hl & _) & _). now rewrite Hl.
  - destruct Hout as ((_ & Hl & _) & _). now rewrite Hl.
  - destruct Hout as ((_ & Hl & _) & _). now rewrite Hl.
  - destruct Hout as (Hx & _). contradiction.
Qed.

(** X4. Credentials left empty are replaced by the built-in ones: a login
    request without email and password is handled exactly like one with
    the defaults spelled out. *)
Theorem login_default_credentials (w : World) (e p : string) :
  loginHandler (postLogin e p) w
    = loginHandler (postLogin (effectiveEmail e) (effectivePassword p)) w
  /\ loginHandler (postLogin "" "") w
     = loginHandler (postLogin "mymymy@gmail.com" "mypassword") w.
Proof.
  split; [|rewrite !loginHandler_post; reflexivity].
  rewrite !loginHandler_post. destruct e, p; reflexivity.
Qed.

End LoginEndpoint.

(** ** The download endpoint *)

Section DownloadEndpoint.
Context `{Outside} `{NetURL}.

Lemma logged_nil (w : World) : logged [] w = w.
Proof. destruct w. unfold logged. cbn. now rewrite app_nil_r. Qed.

(** Every way [downloadHandler] ends. *)
Lemma downloadHandler_outcome (r : Request DownloadRequest) (w : World) :
  match fst (downloadHandler r w) with
  | Val resp =>
      (snd (downloadHandler r w) = w
       /\ In (StatusCode resp) [400; 405])
      \/ (snd (downloadHandler r w) = logged [ERLock; ERUnlock] w
          /\ resp = notLoggedIn /\ isLoggedIn w = false)
      \/ (exists req publicURL r2ObjectKey,
            Body r = Some req /\ isLoggedIn w = true
            /\ generateR2Path (environ w) (dr_URL req) (currentUserEmail w)
               = Some (publicURL, r2ObjectKey)
            /\ resp = downloadStarted publicURL
            /\ snd (downloadHandler r w)
               = logged [ERLock; ERUnlock; EGo (dr_URL req) r2ObjectKey] w)
  | Panic _ =>
      snd (downloadHandler r w) = logged [ERLock; ERUnlock] w
      /\ isLoggedIn w = true
      /\ exists req, Body r = Some req
           /\ generateR2Path (environ w) (dr_URL req) (currentUserEmail w) = None
  | _ => False
  end.
Proof.
  destruct (downloadHandler r w) as [res w'] eqn:Hrun.
  destruct w as [b0 c0 l0 e0 env fs x0 tr]. destruct r as [method body].
  unfold downloadHandler in Hrun. cbn [Method Body] in Hrun. exec_in Hrun.
  cbn [fst snd Body isLoggedIn environ currentUserEmail].
  repeat step_in Hrun.
  all: done_in Hrun.
  all: destruct l0; try discriminate.
  all: unfold logged;
    cbn [browser browserContext currentUserEmail environ files isLoggedIn
         outside trace];
    rewrite <- ?app_assoc; cbn [app].
  all: try (left; split; [reflexivity|cbn; tauto]).
  all: try (right; left; repeat split; reflexivity).
  all: try (split; [reflexivity|split; [reflexivity|eauto]]).
  all: right; right; eexists _, _, _; repeat split; eauto.
Qed.


(** X5. [downloadHandler] changes nothing but the trace: no package-level
    variable and no file.  It calls neither the browser nor the object
    store.  It answers 200, 400, 401 or 405, and starts a download task
    exactly when it answers 200, then exactly one; it panics only while
    logged in, and then no task is started. *)
Theorem download_request_effects (r : Request DownloadRequest) (w : World) :
  exists es : list event,
    snd (downloadHandler r w) = logged es w
    /\ List.filter isCall es = []
    /\ match fst (downloadHandler r w) with
       | Val resp =>
           if Nat.eqb (StatusCode resp) 200 then
             isLoggedIn w = true
             /\ exists targetURL r2Key, collect goOf es = [(targetURL, r2Key)]
           else
             In (StatusCode resp) [400; 401; 405] /\ collect goOf es = []
       | Panic _ => isLoggedIn w = true /\ collect goOf es = []
       | _ => False
       end.
Proof.
  pose proof (downloadHandler_outcome r w) as Hout.
  destruct (downloadHandler r w) as [[resp|err|msg|msg] w']; cbn [fst snd] in *;
    try contradiction.
  - destruct Hout as [(-> & Hs)|[(-> & -> & Hl)|(req & pub & key & _ & Hl & _ & -> & ->)]].
    + exists []. rewrite logged_nil. split; [reflexivity|]. split; [reflexivity|].
      cbn [In] in Hs. destruct Hs as [Hs|[Hs|[]]]; rewrite <- Hs; cbn; tauto.
    + exists [ERLock; ERUnlock]. cbn. tauto.
    + exists [ERLock; ERUnlock; EGo (dr_URL req) key]. cbn. eauto 6.
  - destruct Hout as (-> & Hl & _).
    exists [ERLock; ERUnlock]. cbn. tauto.
Qed.

(** A request [downloadHandler] accepts. *)
Lemma downloadHandler_started (w : World) (url email publicURL r2ObjectKey : string) :
  url <> "" -> email <> "" -> isLoggedIn w = true ->
  generateR2Path (environ w) url (currentUserEmail w) = Some (publicURL, r2ObjectKey) ->
  downloadHandler (postDownload url email) w
  = (Val (downloadStarted publicURL),
     logged [ERLock; ERUnlock; EGo url r2ObjectKey] w).
Proof.
  intros Hu He Hl Hk.
  unfold downloadHandler, postDownload. cbn [Method Body dr_URL dr_Email].
  rewrite (eqb_nonempty url Hu), (eqb_nonempty email He).
  destruct w as [b c l e env fs x tr]. cbn in Hl, Hk. subst l.
  cbv [logged bind emit gets ret step_outside jsonResponse downloadStarted]. cbn.
  rewrite Hk. cbn. now rewrite <- !app_assoc.
Qed.

(** X6. A well-formed download request for a URL that [url.Parse] rejects
    makes the handler panic when the session is logged in: the parse error
    is dropped and the nil URL dereferenced.  The read lock has been given
    back by then, and no task is started. *)
Theorem download_unparsable_url_panics (w : World) (url email : string) :
  url <> "" -> email <> "" -> isLoggedIn w = true ->
  url_Parse_Path url = None ->
  downloadHandler (postDownload url email) w
  = (Panic "invalid memory address or nil pointer dereference",
     logged [ERLock; ERUnlock] w).
Proof.
  intros Hu He Hl Hp.
  unfold downloadHandler, postDownload. cbn [Method Body dr_URL dr_Email].
  rewrite (eqb_nonempty url Hu), (eqb_nonempty email He).
  destruct w as [b c l e env fs x tr]. cbn in Hl. subst l.
  cbv [logged bind emit gets ret panic step_outside]. cbn.
  unfold generateR2Path. rewrite Hp. cbn. now rewrite <- !app_assoc.
Qed.

(** The world [loginHandler] leaves is the one [performLogin] leaves. *)
Lemma loginHandler_leaves (w : World) (e p : string) :
  snd (loginHandler (postLogin e p) w)
  = snd (performLogin (effectiveEmail e) (effectivePassword p)
           (storeEmail (effectiveEmail e) w)).
Proof.
  rewrite loginHandler_post, snd_bind_pure, snd_errorOf; [reflexivity|].
  intros [a|msg] w1; reflexivity.
Qed.

(** X7. Once a login request has been answered with success, a well-formed
    download request for a URL that parses is accepted, whatever email it
    carries: the task is started under the key made of the escaped email
    of the login request (the default one if that was empty) and the file
    name of the URL, and the answer gives that key after the storage base. *)
Theorem download_after_login (w : World) (e p url email path : string) :
  fst (loginHandler (postLogin e p) w) = Val loginSuccess ->
  url <> "" -> email <> "" ->
  url_Parse_Path url = Some path ->
  let w1 := snd (loginHandler (postLogin e p) w) in
  let key := QueryEscape (effectiveEmail e) +:+ "/" +:+ fileNameOf path in
  downloadHandler (postDownload url email) w1
  = (Val (downloadStarted
            (TrimRight (getEnv (environ w) "R2_URL" "https://storage.stokbro.net") "/"
               +:+ "/" +:+ key)),
     logged [ERLock; ERUnlock; EGo url key] w1).
Proof.
  intros Hok Hu He Hp w1 key. subst w1 key.
  pose proof (loginHandler_outcome (postLogin e p) w) as Hout. cbv zeta in Hout.
  rewrite Hok in Hout.
  assert (Hl : isLoggedIn (snd (loginHandler (postLogin e p) w)) = true).
  { destruct Hout as [(Hm & _)|[(Hb & _)|[(state & _ & Hl & _)|(err & Hr & _)]]];
      [now contradiction Hm|discriminate Hb|exact Hl|discriminate Hr]. }
  pose proof (performLogin_outcome (storeEmail (effectiveEmail e) w)
                (effectiveEmail e) (effectivePassword p)) as (_ & _ & _ & Hmail & Henv).
  rewrite <- loginHandler_leaves in Hmail, Henv.
  apply downloadHandler_started; try assumption.
  rewrite Hmail, Henv. cbn [storeEmail logged set_currentUserEmail environ currentUserEmail].
  apply generateR2Path_recipe. exact Hp.
Qed.

End DownloadEndpoint.

(** ** The download pipeline, stage by stage *)

Section Stages.
Context `{Outside}.

Lemma collect_app {A} (f : event -> option A) (l l' : list event) :
  collect f (l ++ l') = collect f l ++ collect f l'.
Proof. unfold collect. apply flat_map_app. Qed.

Lemma removals_app (path : string) (l l' : list event) :
  removals path (l ++ l') = removals path l + removals path l'.
Proof. unfold removals. now rewrite List.filter_app, length_app. Qed.

(** What [runDownload] leaves behind. *)
Lemma runDownload_outcome (w : World) (targetURL : string) :
  let w' := snd (runDownload targetURL w) in
  exists evs : list event,
    trace w' = trace w ++ evs
    /\ collect putObject evs = [] /\ collect openedFile evs = []
    /\ (forall p, removals p evs = 0)
    /\ sameSession w w' /\ currentUserEmail w' = currentUserEmail w
    /\ match fst (runDownload targetURL w) with
       | Val path =>
           exists (name data : string),
             In (Some name) (map suggestedName evs)
             /\ path = PathJoin (downloadsDir (environ w)) name
             /\ In (Some (path, Done data)) (map savedAs evs)
             /\ files w' = <[path := data]> (files w)
       | Raise _ => files w' = files w
       | Panic _ =>
           files w' = files w /\ browserContext w = None
           /\ evs = [ERLock; ERUnlock]
       | Exit _ => False
       end.
Proof.
  intros w'. subst w'.
  destruct (runDownload targetURL w) as [r w'] eqn:Hrun.
  destruct w as [b0 c0 l0 e0 env fs x0 tr].
  cbn [fst snd browser browserContext currentUserEmail environ files isLoggedIn
       trace].
  unfold runDownload in Hrun. exec_in Hrun.
  repeat step_in Hrun.
  all: done_in Hrun.
  all: unfold sameSession;
    cbn [browser browserContext currentUserEmail environ files isLoggedIn trace].
  all: rewrite <- ?app_assoc; cbn [app].
  all: eexists; split; [reflexivity|].
  all: split; [reflexivity|]; split; [reflexivity|]; split; [reflexivity|].
  all: split; [repeat split|]; split; [reflexivity|].
  all: try reflexivity.
  all: try (split; [reflexivity|split; reflexivity]).
  all: eexists _, _; split; [cbn [map suggestedName In]; among|].
  all: split; [reflexivity|].
  all: split; [cbn [map savedAs In]; among|reflexivity].
Qed.



(** What [uploadToR2] does. *)
Lemma uploadToR2_outcome (w : World) (localPath objectKey : string) :
  let w' := snd (uploadToR2 localPath objectKey w) in
  let sent := (getEnv (environ w) "R2_BUCKET_NAME" "", objectKey) in
  exists evs : list event,
    trace w' = trace w ++ evs
    /\ files w' = files w
    /\ (forall p, removals p evs = 0)
    /\ Forall (fun p => p = localPath) (collect openedFile evs)
    /\ sameSession w w' /\ currentUserEmail w' = currentUserEmail w
    /\ match fst (uploadToR2 localPath objectKey w) with
       | Val _ =>
           exists data, files w !! localPath = Some data
                        /\ collect putObject evs = [(sent, data)]
       | Raise _ =>
           collect putObject evs = []
           \/ exists data, files w !! localPath = Some data
                           /\ collect putObject evs = [(sent, data)]
       | _ => False
       end.
Proof.
  intros w' sent. subst w' sent.
  destruct (uploadToR2 localPath objectKey w) as [r w'] eqn:Hrun.
  destruct w as [b0 c0 l0 e0 env fs x0 tr].
  cbn [fst snd browser browserContext currentUserEmail environ files isLoggedIn
       trace].
  unfold uploadToR2 in Hrun. exec_in Hrun.
  repeat step_in Hrun.
  all: done_in Hrun.
  all: unfold sameSession;
    cbn [browser browserContext currentUserEmail environ files isLoggedIn trace].
  all: rewrite <- ?app_assoc; cbn [app].
  all: eexists; split; [reflexivity|].
  all: split; [reflexivity|]; split; [reflexivity|].
  all: split; [cbn; repeat constructor|].
  all: split; [repeat split|]; split; [reflexivity|].
  all: try (left; reflexivity).
  all: try (right; eexists; split; [reflexivity|reflexivity]).
  all: eexists; split; reflexivity.
Qed.

(** X9. [uploadToR2] sends at most one object: the contents of the local
    file it was given, under the key it was given, to the bucket named by
    [R2_BUCKET_NAME] (no default).  It returns nil only after sending;
    when the file does not exist nothing is sent.  It opens no other file,
    removes none and changes none. *)
Theorem upload_sends_the_local_file (w : World) (localPath objectKey : string) :
  let w' := snd (uploadToR2 localPath objectKey w) in
  let sent := (getEnv (environ w) "R2_BUCKET_NAME" "", objectKey) in
  exists evs : list event,
    trace w' = trace w ++ evs
    /\ files w' = files w
    /\ (forall p, removals p evs = 0)
    /\ Forall (fun p => p = localPath) (collect openedFile evs)
    /\ (files w !! localPath = None -> collect putObject evs = [])
    /\ match fst (uploadToR2 localPath objectKey w) with
       | Val _ =>
           exists data, files w !! localPath = Some data
                        /\ collect putObject evs = [(sent, data)]
       | Raise _ =>
           collect putObject evs = []
           \/ exists data, files w !! localPath = Some data
                           /\ collect putObject evs = [(sent, data)]
       | _ => False
       end.
Proof.
  intros w' sent. subst w' sent.
  destruct (uploadToR2_outcome w localPath objectKey)
    as (evs & Htr & Hfs & Hrm & Hopen & _ & _ & Hres).
  exists evs. repeat (split; [assumption|]). split; [|exact Hres].
  intros Hnone. rewrite Hnone in Hres.
  destruct (fst (uploadToR2 localPath objectKey w)); try contradiction.
  - destruct Hres as (data & Hd & _). discriminate Hd.
  - destruct Hres as [Hs|(data & Hd & _)]; [exact Hs|discriminate Hd].
Qed.

End Stages.

(** ** The pipeline as a whole *)

Section WholePipeline.
Context `{Outside}.

(** X10. [processDownload] hands [uploadToR2] the URL of the page where
    the path of the staged file belongs.  Every file the pipeline opens is
    named by the URL; so, unless a local file carries the URL as its name,
    nothing is ever sent to the object store and nothing is removed: what
    the download staged stays. *)
Theorem pipeline_uploads_nothing (w : World) (targetURL r2Key : string) :
  files w !! targetURL = None ->
  (forall path, fst (runDownload targetURL w) = Val path -> path <> targetURL) ->
  let w' := snd (processDownload targetURL r2Key w) in
  exists evs : list event,
    trace w' = trace w ++ evs
    /\ Forall (fun p => p = targetURL) (collect openedFile evs)
    /\ collect putObject evs = []
    /\ (forall p, removals p evs = 0)
    /\ files w' = files (snd (runDownload targetURL w)).
Proof.
  intros Hnone Hpath w'. subst w'.
  rewrite processDownload_unfold.
  destruct (runDownload_outcome w targetURL)
    as (evs1 & Htr1 & Hput1 & Hopen1 & Hrm1 & _ & _ & Hres1).
  destruct (runDownload targetURL w) as [[path|err|msg|msg] w1];
    cbn [fst snd] in *; try contradiction.
  2,3: exists evs1; rewrite Hopen1; repeat split; auto.
  destruct Hres1 as (name & data & _ & _ & _ & Hfs1).
  assert (Hnone1 : files w1 !! targetURL = None).
  { rewrite Hfs1, lookup_insert_ne; [exact Hnone|]. now apply Hpath. }
  destruct (uploadToR2_outcome w1 targetURL r2Key)
    as (evs2 & Htr2 & Hfs2 & Hrm2 & Hopen2 & _ & _ & Hres2).
  rewrite Hnone1 in Hres2.
  destruct (uploadToR2 targetURL r2Key w1) as [[u|err|msg|msg] w2];
    cbn [fst snd] in *; try contradiction.
  - destruct Hres2 as (d & Hd & _). discriminate Hd.
  - destruct Hres2 as [Hput2|(d & Hd & _)]; [|discriminate Hd].
    exists (evs1 ++ evs2). rewrite Htr2, Htr1, <- app_assoc.
    rewrite !collect_app, Hopen1, Hput1, Hput2. cbn [app].
    repeat split; auto. intros p. now rewrite removals_app, Hrm1, Hrm2.
Qed.

End WholePipeline.

(** ** Pages *)

Ltac page_walk :=
  repeat (cbn [pageProtocol pageOpened pageClosed pageUsed andb];
          rewrite ?Nat.eqb_refl);
  reflexivity.

Section Pages.
Context `{Outside} `{NetURL}.

Lemma loginHandler_pages (r : Request LoginRequest) (w : World) :
  pageProtocol None (eventsOf (LoginJob r w)) = true.
Proof.
  unfold eventsOf.
  destruct (loginHandler r (clearTrace w)) as [resp w'] eqn:Hrun.
  destruct w as [b0 c0 l0 e0 env fs x0 tr]. destruct r as [method body].
  unfold loginHandler, performLogin, clearTrace in Hrun.
  cbn [Method Body] in Hrun. exec_in Hrun.
  repeat step_in Hrun.
  all: done_in Hrun; cbn [fst snd trace app]; page_walk.
Qed.

Lemma downloadHandler_pages (r : Request DownloadRequest) (w : World) :
  pageProtocol None (eventsOf (DownloadJob r w)) = true.
Proof.
  unfold eventsOf.
  destruct (downloadHandler r (clearTrace w)) as [resp w'] eqn:Hrun.
  destruct w as [b0 c0 l0 e0 env fs x0 tr]. destruct r as [method body].
  unfold downloadHandler, clearTrace in Hrun.
  cbn [Method Body] in Hrun. exec_in Hrun.
  repeat step_in Hrun.
  all: done_in Hrun; cbn [fst snd trace app]; page_walk.
Qed.

Lemma statusHandler_pages (r : Request unit) (w : World) :
  pageProtocol None (eventsOf (StatusJob r w)) = true.
Proof.
  unfold eventsOf.
  destruct (statusHandler r (clearTrace w)) as [resp w'] eqn:Hrun.
  destruct w as [b0 c0 l0 e0 env fs x0 tr]. destruct r as [method body].
  unfold statusHandler, clearTrace in Hrun.
  cbn [Method Body] in Hrun. exec_in Hrun.
  repeat step_in Hrun.
  all: done_in Hrun; cbn [fst snd trace app]; page_walk.
Qed.

Lemma processDownload_pages (targetURL r2Key : string) (w : World) :
  pageProtocol None (eventsOf (TransferJob targetURL r2Key w)) = true.
Proof.
  unfold eventsOf.
  destruct (processDownload targetURL r2Key (clearTrace w)) as [resp w'] eqn:Hrun.
  destruct w as [b0 c0 l0 e0 env fs x0 tr].
  unfold processDownload, uploadToR2, runDownload, clearTrace in Hrun.
  exec_in Hrun.
  repeat step_in Hrun.
  all: done_in Hrun; cbn [fst snd trace app]; page_walk.
Qed.

Lemma tempVariant_pages (targetURL : string) (w : World) :
  pageProtocol None
    (trace (snd (TempVariant.processDownload targetURL (clearTrace w)))) = true.
Proof.
  destruct (TempVariant.processDownload targetURL (clearTrace w)) as [resp w'] eqn:Hrun.
  destruct w as [b0 c0 l0 e0 env fs x0 tr].
  unfold TempVariant.processDownload, TempVariant.runDownload, clearTrace in Hrun.
  TempVariantFacts.exec_tmp_in Hrun.
  repeat (step_in Hrun; TempVariantFacts.exec_tmp_in Hrun).
  all: done_in Hrun; cbn [fst snd trace app]; page_walk.
Qed.

(** X11. Every goroutine of the service, and the pipeline of the
    temporary-file variant, treats pages alike: at most one page is open
    at a time, every call on a page is on the page that is open, and the
    page is closed before the goroutine ends, whether it returns or
    panics. *)
Theorem pages_are_closed (j : Job) (targetURL : string) (w : World) :
  pageProtocol None (eventsOf j) = true
  /\ pageProtocol None
       (trace (snd (TempVariant.processDownload targetURL (clearTrace w)))) = true.
Proof.
  split; [|apply tempVariant_pages].
  destruct j.
  - apply loginHandler_pages.
  - apply downloadHandler_pages.
  - apply statusHandler_pages.
  - apply processDownload_pages.
Qed.

End Pages.

(** ** The download button *)

Section Button.
Context `{Outside}.

(** X12. A download run that finds the download button not visible ends
    with that error: it never clicks, so no download is captured, the
    object store is never called and no file changes. *)
Theorem missing_button_aborts (w : World) (targetURL r2Key : string) :
  trace w = [] ->
  In (Some (downloadButtonSelector, false))
     (map visibleQuery (trace (snd (processDownload targetURL r2Key w)))) ->
  fst (runDownload targetURL w) = Raise "download button not found"
  /\ collect captureOf (trace (snd (processDownload targetURL r2Key w))) = []
  /\ List.filter isUploadCall (trace (snd (processDownload targetURL r2Key w))) = []
  /\ files (snd (processDownload targetURL r2Key w)) = files w.
Proof.
  intros Htr Hin.
  destruct (processDownload targetURL r2Key w) as [r w'] eqn:Hrun.
  destruct (runDownload targetURL w) as [r1 w1] eqn:Hdl.
  destruct w as [b0 c0 l0 e0 env fs x0 tr].
  cbn [trace files fst snd] in *. subst tr.
  unfold processDownload, uploadToR2, runDownload in Hrun.
  unfold runDownload in Hdl.
  exec_in Hrun. exec_in Hdl.
  repeat step_in Hrun.
  all: done_in Hrun; done_in Hdl.
  all: cbn [map visibleQuery app In trace] in Hin.
  all: repeat (destruct Hin as [Hin|Hin]); try discriminate Hin; try contradiction.
  all: repeat split.
Qed.

End Button.

(** ** The temporary-file variant, end to end *)

Module TempVariantPipeline.
Import TempVariant.

Section Upload.
Context `{Outside}.

(** X13. In the temporary-file variant, whatever reaches the uploader is
    what the browser saved into the temporary file of that run; it goes to
    the bucket named by [R2_BUCKET_NAME], or [freepik-downloads], under
    the day's date, a slash and the file name the site suggested. *)
Theorem uploads_what_was_saved (w : World) (targetURL bucket key body : string) :
  let tr := trace (snd (processDownload targetURL (clearTrace w))) in
  In (bucket, key, body) (collect uploaderCall tr) ->
  bucket = getEnv (environ w) "R2_BUCKET_NAME" "freepik-downloads"
  /\ exists (date name tmpPath : string),
       key = date +:+ "/" +:+ name
       /\ In (Some date) (map timestampOf tr)
       /\ In (Some name) (map suggestedName tr)
       /\ In (Some (Done tmpPath)) (map tempCreated tr)
       /\ In (Some (tmpPath, Done body)) (map savedAs tr).
Proof.
  intros tr. subst tr.
  destruct (processDownload targetURL (clearTrace w)) as [r w'] eqn:Hrun.
  destruct w as [b0 c0 l0 e0 env fs x0 tr].
  cbn [environ fst snd].
  unfold processDownload, runDownload, clearTrace in Hrun.
  TempVariantFacts.exec_tmp_in Hrun.
  repeat (step_in Hrun; TempVariantFacts.exec_tmp_in Hrun).
  all: repeat match goal with
              | E : <[_:=_]> _ !! _ = _ |- _ =>
                  rewrite lookup_insert_eq in E;
                  first [discriminate E | injection E as E; subst]
              end.
  all: done_in Hrun.
  all: cbn [trace app collect flat_map uploaderCall In].
  all: intros Hin; repeat (destruct Hin as [Hin|Hin]); try contradiction.
  all: injection Hin as <- <- <-.
  all: split; [reflexivity|].
  all: eexists _, _, _; split; [reflexivity|].
  all: split; [cbn [map timestampOf In]; among|].
  all: split; [cbn [map suggestedName In]; among|].
  all: split; [cbn [map tempCreated In]; among|].
  all: cbn [map savedAs In]; among.
Qed.

End Upload.
End TempVariantPipeline.

(** ** What the session goes through *)

Section SessionKept.
Context `{Outside} `{NetURL}.

Lemma loginHandler_frame (r : Request LoginRequest) (w : World) :
  let w' := snd (loginHandler r w) in
  browser w' = browser w /\ browserContext w' = browserContext w
  /\ environ w' = environ w
  /\ (isLoggedIn w' = true \/ isLoggedIn w' = isLoggedIn w).
Proof.
  intros w'. subst w'. destruct r as [method [[e p]|]].
  2:{ unfold loginHandler. cbn [Method Body].
      destruct (String.eqb method "POST"); cbn; tauto. }
  destruct (String.eqb method "POST") eqn:Hm.
  2:{ unfold loginHandler. cbn [Method Body]. rewrite Hm. cbn. tauto. }
  rewrite (loginHandler_decoded method e p Hm), loginHandler_leaves.
  pose proof (performLogin_outcome (storeEmail (effectiveEmail e) w)
                (effectiveEmail e) (effectivePassword p)) as Hout.
  cbv zeta in Hout. destruct Hout as (Hres & Hb & Hc & _ & Henv).
  split; [exact Hb|]. split; [exact Hc|]. split; [exact Henv|].
  destruct (fst (performLogin _ _ _)).
  - destruct Hres as (c & state & evs & _ & Hl & _). now left.
  - destruct Hres as (_ & Hl & _). now right.
  - destruct Hres as (_ & Hl & _). now right.
  - contradiction.
Qed.

Lemma statusHandler_frame (r : Request unit) (w : World) :
  sameSession w (snd (statusHandler r w))
  /\ currentUserEmail (snd (statusHandler r w)) = currentUserEmail w.
Proof.
  destruct (statusHandler r w) as [resp w'] eqn:Hrun.
  destruct w as [b0 c0 l0 e0 env fs x0 tr]. destruct r as [method body].
  unfold statusHandler in Hrun. cbn [Method] in Hrun. exec_in Hrun.
  repeat step_in Hrun.
  all: done_in Hrun; unfold sameSession; cbn; tauto.
Qed.

Lemma processDownload_frame (targetURL r2Key : string) (w : World) :
  sameSession w (snd (processDownload targetURL r2Key w))
  /\ currentUserEmail (snd (processDownload targetURL r2Key w)) = currentUserEmail w.
Proof.
  rewrite processDownload_unfold.
  destruct (runDownload_outcome w targetURL)
    as (evs1 & _ & _ & _ & _ & Hs1 & He1 & _).
  destruct (runDownload targetURL w) as [[path|err|msg|msg] w1];
    cbn [fst snd] in *; try (split; assumption).
  destruct (uploadToR2_outcome w1 targetURL r2Key)
    as (evs2 & _ & _ & _ & _ & Hs2 & He2 & _).
  assert (Hs : sameSession w (snd (uploadToR2 targetURL r2Key w1))).
  { eapply frame_trans; eassumption. }
  destruct (uploadToR2 targetURL r2Key w1) as [[u|err|msg|msg] w2];
    cbn [fst snd] in *; try (split; [exact Hs|congruence]).
  split; [|cbn; congruence].
  eapply frame_trans; [exact Hs|]. unfold sameSession. cbn. tauto.
Qed.

(** X14. No goroutine of the service replaces the browser, the browser
    context or the environment, and none resets the logged-in flag: once
    logged in, the service stays so until the process ends.  Only login
    requests change the session at all; download requests, status
    requests and download tasks leave the flag and the stored email as
    they found them. *)
Theorem session_is_kept (j : Job) :
  sessionKept (startOf j) (serve j)
  /\ (isLoginJob j = false ->
      isLoggedIn (serve j) = isLoggedIn (startOf j)
      /\ currentUserEmail (serve j) = currentUserEmail (startOf j)).
Proof.
  unfold sessionKept. destruct j as [r w|r w|r w|targetURL r2Key w];
    cbn [startOf serve isLoginJob].
  - destruct (loginHandler_frame r w) as (Hb & Hc & Henv & Hl).
    split; [|discriminate].
    split; [exact Hb|]. split; [exact Hc|]. split; [exact Henv|].
    intros Hw. destruct Hl as [Hl|Hl]; congruence.
  - pose proof (downloadHandler_outcome r w) as Hout.
    assert (Hes : exists es, snd (downloadHandler r w) = logged es w).
    { destruct (downloadHandler r w) as [[resp|err|msg|msg] w']; cbn [fst snd] in *;
        try contradiction.
      - destruct Hout as [(-> & _)|[(-> & _)|(req & pub & key & _ & _ & _ & _ & ->)]];
          [exists []; now rewrite logged_nil|eauto|eauto].
      - destruct Hout as (-> & _). eauto. }
    destruct Hes as (es & ->). cbn. tauto.
  - destruct (statusHandler_frame r w) as ((Hb & Hc & Hl & Henv) & He).
    split; [|intros _; split; assumption].
    split; [exact Hb|]. split; [exact Hc|]. split; [exact Henv|]. congruence.
  - destruct (processDownload_frame targetURL r2Key w) as ((Hb & Hc & Hl & Henv) & He).
    split; [|intros _; split; assumption].
    split; [exact Hb|]. split; [exact Hc|]. split; [exact Henv|]. congruence.
Qed.

End SessionKept.

(** ** Restarting *)

Section Restart.
Context `{Outside}.



End Restart.

(** ** Startup of the temporary-file variant *)

Module StartupFacts.

Section Credentials.
Context `{Outside}.

(** X16. The temporary-file variant does not start without its three
    object-store credentials: with one of them unset or empty, [main]
    exits before Playwright is started, and nothing has been called. *)
Theorem startup_needs_credentials (w : World) :
  environ w "R2_ACCOUNT_ID" = "" \/ environ w "R2_ACCESS_KEY_ID" = ""
  \/ environ w "R2_SECRET_ACCESS_KEY" = "" ->
  TempVariantStartup.main w
  = (Exit ("Failed to initialize R2 client: "
           +:+ "R2 credentials not set. Set R2_ACCOUNT_ID, R2_ACCESS_KEY_ID, and R2_SECRET_ACCESS_KEY"),
     w).
Proof.
  intros Hmissing.
  assert (Hinit : TempVariantStartup.initR2Client w
                  = (Raise "R2 credentials not set. Set R2_ACCOUNT_ID, R2_ACCESS_KEY_ID, and R2_SECRET_ACCESS_KEY", w)).
  { unfold TempVariantStartup.initR2Client, bind, gets, getEnv.
    destruct Hmissing as [E|[E|E]]; rewrite E; cbn [String.eqb orb];
      rewrite ?orb_true_r; reflexivity. }
  unfold TempVariantStartup.main, bind, errorOf. rewrite Hinit. reflexivity.
Qed.

End Credentials.
End StartupFacts.

(** ** Keys and users *)

Section KeysPerUser.

Lemma QueryEscape_cons (c : ascii) (s : string) :
  QueryEscape (String c s) = QueryEscape (String c "") +:+ QueryEscape s.
Proof.
  cbn [QueryEscape].
  destruct (shouldEscape c); [|reflexivity].
  destruct (Ascii.eqb c " "); reflexivity.
Qed.

Ltac each_byte c :=
  destruct c as [[] [] [] [] [] [] [] []].

Lemma QueryUnescape_byte (c : ascii) (t : string) :
  QueryUnescape (QueryEscape (String c "") +:+ t) = String c (QueryUnescape t).
Proof.
  each_byte c;
    match goal with
    | |- context [QueryEscape ?s] =>
        let v := eval vm_compute in (QueryEscape s) in
        change (QueryEscape s) with v
    end;
    reflexivity.
Qed.

(** Unescaping gives back what was escaped. *)
Lemma QueryUnescape_QueryEscape (s : string) : QueryUnescape (QueryEscape s) = s.
Proof.
  induction s as [|c s IH]; [reflexivity|].
  now rewrite QueryEscape_cons, QueryUnescape_byte, IH.
Qed.

Lemma QueryEscape_inj (s t : string) : QueryEscape s = QueryEscape t -> s = t.
Proof.
  intros Heq. rewrite <- (QueryUnescape_QueryEscape s), Heq.
  apply QueryUnescape_QueryEscape.
Qed.

Lemma QueryEscape_byte_noslash (c : ascii) :
  containsByte (Ascii.eqb "/") (QueryEscape (String c "")) = false.
Proof. each_byte c; vm_compute; reflexivity. Qed.

(** An escaped string holds no slash. *)
Lemma QueryEscape_noslash (s : string) :
  containsByte (Ascii.eqb "/") (QueryEscape s) = false.
Proof.
  induction s as [|c s IH]; [reflexivity|].
  now rewrite QueryEscape_cons, containsByte_app, QueryEscape_byte_noslash, IH.
Qed.

(** Two names cut at their first slash. *)
Lemma first_slash (a b x y : string) :
  containsByte (Ascii.eqb "/") a = false ->
  containsByte (Ascii.eqb "/") b = false ->
  a +:+ String "/" x = b +:+ String "/" y -> a = b.
Proof.
  revert b. induction a as [|c a IH]; intros [|d b] Ha Hb Heq;
    rewrite ?append_cons, ?append_nil_l in Heq.
  - reflexivity.
  - injection Heq as <- _. cbn in Hb. discriminate.
  - injection Heq as -> _. cbn in Ha. discriminate.
  - injection Heq as -> Heq. cbn [containsByte] in Ha, Hb.
    apply orb_false_iff in Ha as [_ Ha]. apply orb_false_iff in Hb as [_ Hb].
    f_equal. now apply IH.
Qed.

Context `{NetURL}.

(** X17. Users never share an object key: the keys [generateR2Path] makes
    for two different emails differ, whatever the URLs and the
    environments; the escaped email is the part of the key before its
    first slash, and escaping loses nothing. *)
Theorem keys_are_per_user (env env' : Environ)
    (url url' email email' publicURL publicURL' key key' : string) :
  email <> email' ->
  generateR2Path env url email = Some (publicURL, key) ->
  generateR2Path env' url' email' = Some (publicURL', key') ->
  key <> key'
  /\ exists name name',
       key = QueryEscape email +:+ "/" +:+ name
       /\ key' = QueryEscape email' +:+ "/" +:+ name'
       /\ QueryUnescape (QueryEscape email) = email.
Proof.
  intros Hne Hk Hk'.
  unfold generateR2Path in Hk, Hk'.
  destruct (url_Parse_Path url) as [path|]; [|discriminate].
  destruct (url_Parse_Path url') as [path'|]; [|discriminate].
  cbv zeta in Hk, Hk'. injection Hk as _ <-. injection Hk' as _ <-.
  split.
  - intros Heq. apply Hne, QueryEscape_inj.
    eapply first_slash; [apply QueryEscape_noslash|apply QueryEscape_noslash|exact Heq].
  - eexists _, _. split; [reflexivity|]. split; [reflexivity|].
    apply QueryUnescape_QueryEscape.
Qed.

End KeysPerUser.

(** ** Progress under the mutex *)

Section Progress.






Context `{Outside} `{NetURL}.


End Progress.

(** ** What the temporary-file variant leaves on disk *)

Module TempVariantDisk.
Import TempVariant.

Section Disk.
Context `{Outside}.

(** X19. The pipeline of the temporary-file variant adds no file to the
    file system: every file found after a run was there before, with the
    same contents.  (The latest variant, in contrast, leaves every file
    it stages.) *)
Theorem leaves_no_file (w : World) (targetURL path : string) :
  let w' := snd (processDownload targetURL w) in
  is_Some (files w' !! path) -> files w' !! path = files w !! path.
Proof.
  intros w'. subst w'.
  destruct (processDownload targetURL w) as [r w'] eqn:Hrun.
  destruct w as [b0 c0 l0 e0 env fs x0 tr].
  cbn [files fst snd].
  unfold processDownload, runDownload in Hrun.
  TempVariantFacts.exec_tmp_in Hrun.
  repeat (step_in Hrun; TempVariantFacts.exec_tmp_in Hrun).
  all: done_in Hrun; cbn [files]; intros Hfile; try reflexivity.
  all: match goal with
       | |- delete ?p _ !! ?q = _ =>
           destruct (decide (p = q)) as [->|Hne];
           [rewrite lookup_delete_eq in Hfile; destruct Hfile; discriminate
           |now rewrite lookup_delete_ne, ?lookup_insert_ne by exact Hne]
       end.
Qed.

End Disk.
End TempVariantDisk.

(** ** The health endpoint *)

Section Health.
Context `{Outside}.

(** X20. [healthHandler] looks at nothing but the method of the request:
    it answers every GET with 200 and success, anything else with 405,
    whatever the state of the session; it takes no lock, calls nothing and
    changes nothing. *)
Theorem health_ignores_the_session (r : Request unit) (w w0 : World) :
  snd (healthHandler r w) = w
  /\ fst (healthHandler r w) = fst (healthHandler r w0)
  /\ exists resp,
       fst (healthHandler r w) = Val resp
       /\ StatusCode resp = (if String.eqb (Method r) "GET" then 200 else 405).
Proof.
  unfold healthHandler. destruct (String.eqb (Method r) "GET"); cbn; eauto.
Qed.

End Health.

(** ** Runs on the scripted outside world *)



Ltac by_run := vm_compute; reflexivity.

Lemma download_not_logged_in_witness :
  @downloadHandler scriptedOutside plainURLPath (postDownload sampleURL "a@b.com")
    (bootWorld happyScript ∅)
  = (Val {| StatusCode := 401;
            payload := DownloadJSON {| d_Success := false; d_Message := "";
                                       d_File := "";
                                       d_Error := "Not logged in. Please login first." |} |},
     logged [ERLock; ERUnlock] (bootWorld happyScript ∅)).
Proof.
  refine (proj1 (@download_not_logged_in scriptedOutside plainURLPath
                   (bootWorld happyScript ∅) sampleURL "a@b.com" _ _ eq_refl));
    discriminate.
Defined.

Lemma download_key_from_login_email_witness :
  @downloadHandler scriptedOutside plainURLPath (postDownload sampleURL "other@c.d")
    (servingWorld happyScript)
  = (Val (jsonResponse
            (DownloadJSON {| d_Success := true; d_Message := "Download started";
                             d_File := "https://storage.stokbro.net/a%40b.com/red-fox.jpg";
                             d_Error := "" |})),
     logged [ERLock; ERUnlock; EGo sampleURL "a%40b.com/red-fox.jpg"]
       (servingWorld happyScript)).
Proof.
  refine (proj2 (proj2 (@download_key_from_login_email scriptedOutside plainURLPath
            (servingWorld happyScript) sampleURL "other@c.d" "a@b.com" _ _ _))
            _ _ eq_refl eq_refl); discriminate.
Defined.

Lemma failed_login_is_atomic_witness :
  let w := storeEmail "x@y.z" (servingWorld gotoFails) in
  isLoggedIn (snd (performLogin "x@y.z" "secret" w)) = true
  /\ browserContext (snd (performLogin "x@y.z" "secret" w)) = Some 2
  /\ fst (loginHandler (postLogin "x@y.z" "secret") (servingWorld gotoFails))
     = Val (loginFailure "failed to navigate to freepik: Goto failed").
Proof.
  intros w.
  assert (Herr : fst (performLogin "x@y.z" "secret" w)
                 = Raise "failed to navigate to freepik: Goto failed") by by_run.
  destruct (@failed_login_is_atomic scriptedOutside w "x@y.z" "secret"
              "failed to navigate to freepik: Goto failed" Herr)
    as (Hl & Hc & Hh).
  split; [exact Hl|]. split; [exact Hc|].
  destruct (Hh (servingWorld gotoFails) "x@y.z" "secret" eq_refl eq_refl eq_refl)
    as (Hr & _).
  now rewrite Hr.
Defined.

(** The email of a failed login stays: the session of [a@b.com] ends up
    under [x@y.z]. *)
Example failed_login_keeps_new_email :
  let '(resp, w') := loginHandler (postLogin "x@y.z" "secret") (servingWorld gotoFails) in
  resp = Val (loginFailure "failed to navigate to freepik: Goto failed")
  /\ currentUserEmail (servingWorld gotoFails) = "a@b.com"
  /\ currentUserEmail w' = "x@y.z" /\ isLoggedIn w' = true.
Proof. vm_compute. repeat split. Qed.



(** The ambiguous run does end logged in. *)
Example ambiguous_login_run :
  let '(r, w') := performLogin "x@y.z" "secret" (loggedOutWorld ambiguousScript) in
  r = Val tt /\ isLoggedIn w' = true
  /\ files w' !! "/root/freepik_storage_state.json" = Some "{}".
Proof. vm_compute. repeat split. Qed.

Lemma blocked_page_aborts_witness :
  let w := servingWorld blockedScript in
  fst (runDownload sampleURL w) = Raise "page blocked by anti-bot protection"
  /\ (forall q, ~ In (Some q)
        (map visibleQuery (trace (snd (processDownload sampleURL "k" w)))))
  /\ List.filter isUploadCall (trace (snd (processDownload sampleURL "k" w))) = [].
Proof.
  intros w.
  apply (@blocked_page_aborts scriptedOutside w sampleURL "k" "Just a moment..." eq_refl).
  - vm_compute. tauto.
  - right. reflexivity.
Defined.

Lemma staged_file_cleanup_witness :
  let w := servingWorld happyScript in
  let w' := snd (processDownload sampleURL "a%40b.com/red-fox.jpg" w) in
  fst (runDownload sampleURL w) = Val "/root/freepik_downloads/red-fox.jpg"
  /\ removals "/root/freepik_downloads/red-fox.jpg" (trace w') = 0
  /\ is_Some (files w' !! "/root/freepik_downloads/red-fox.jpg").
Proof.
  intros w w'.
  assert (Hdl : fst (runDownload sampleURL w)
                = Val "/root/freepik_downloads/red-fox.jpg") by by_run.
  assert (Hup : fst (uploadToR2 sampleURL "a%40b.com/red-fox.jpg"
                       (snd (runDownload sampleURL w)))
                = Raise ("open " +:+ sampleURL +:+ ": no such file or directory"))
    by by_run.
  split; [exact Hdl|].
  pose proof (@staged_file_cleanup scriptedOutside w sampleURL
                "a%40b.com/red-fox.jpg" "/root/freepik_downloads/red-fox.jpg"
                eq_refl Hdl) as Hc.
  cbv zeta in Hc. rewrite Hup in Hc. exact Hc.
Defined.

(** The staged file of the happy run is still there when the run ends. *)
Example staged_file_left_behind :
  let w' := snd (processDownload sampleURL "a%40b.com/red-fox.jpg"
                   (servingWorld happyScript)) in
  files w' !! "/root/freepik_downloads/red-fox.jpg" = Some "JPEGDATA"
  /\ removals "/root/freepik_downloads/red-fox.jpg" (trace w') = 0
  /\ List.last (trace w') ELock = EOpen sampleURL false.
Proof. vm_compute. repeat split. Qed.

(** The temporary-file variant on the same run. *)
Example temp_file_removed :
  let w' := snd (TempVariant.processDownload sampleURL (servingWorld happyScript)) in
  files w' !! "/tmp/freepik-1" = None
  /\ removals "/tmp/freepik-1" (trace w') = 1.
Proof. vm_compute. repeat split. Qed.

Lemma startup_session_witness :
  let w := bootWorld happyScript {[ "/root/freepik_storage_state.json" := "{}" ]} in
  let w' := snd (main w) in
  fst (main w) = Val tt
  /\ browser w' = Some 1 /\ browserContext w' = Some 2
  /\ isLoggedIn w' = true
  /\ trace w' = trace w ++ startedFromStorage (getStorageStatePath (environ w)) 1 2.
Proof.
  intros w.
  assert (Hrun : @respond scriptedOutside _ Playwright_Run (outside w)
                 = (Done tt, happyScript)) by by_run.
  assert (Hlaunch : @respond scriptedOutside _ (Chromium_Launch launchOptions) happyScript
                    = (Done 1, fresh happyScript)) by by_run.
  assert (Hfile : is_Some (files w !! getStorageStatePath (environ w))).
  { exists "{}". by_run. }
  assert (Hnew : @respond scriptedOutside _
                   (NewContext 1 (storedContextOptions (getStorageStatePath (environ w))))
                   (fresh happyScript)
                 = (Done 2, fresh (fresh happyScript))) by by_run.
  destruct (@startup_session scriptedOutside w) as [Hserves _].
  destruct (Hserves happyScript (fresh happyScript) 1 Hrun Hlaunch) as [Hstored _].
  exact (Hstored 2 (fresh (fresh happyScript)) Hfile Hnew).
Defined.

(** Startup on the scripted world. *)
Example startup_from_storage :
  let '(r, w') := main (bootWorld happyScript
                          {[ "/root/freepik_storage_state.json" := "{}" ]}) in
  r = Val tt /\ isLoggedIn w' = true /\ browserContext w' = Some 2
  /\ createdContexts (trace w') = [2].
Proof. vm_compute. repeat split. Qed.

Example startup_fresh :
  let '(r, w') := main (bootWorld happyScript ∅) in
  r = Val tt /\ isLoggedIn w' = false /\ browserContext w' = Some 2
  /\ In (Some (freshContextOptions, Done 2)) (map newContextCall (trace w')).
Proof. vm_compute. repeat split. tauto. Qed.

(** What follows the last underscore goes, numeric or not. *)
Example key_without_numeric_id :
  @generateR2Path plainURLPath (fun _ => "")
     "https://www.freepik.com/free-photo/red_fox.htm" "a@b.com"
  = Some ("https://storage.stokbro.net/a%40b.com/red.jpg", "a%40b.com/red.jpg").
Proof. reflexivity. Qed.

Lemma logins_are_exclusive_witness :
  exists t0 t1,
    snd firstLoginUnderWay !! 0 = Some t0
    /\ snd firstLoginUnderWay !! 1 = Some t1
    /\ holds t0 = Writing /\ holds t1 = Free
    /\ (todo t1 = [] \/ exists rest, todo t1 = ELock :: rest).
Proof.
  assert (Hreach : reachable (map (@eventsOf scriptedOutside plainURLPath) twoLogins)
                     (fst firstLoginUnderWay, snd firstLoginUnderWay)).
  { rewrite <- surjective_pairing. apply schedule_reachable. }
  let v := eval vm_compute in (snd firstLoginUnderWay !! 0) in
  assert (H0 : snd firstLoginUnderWay !! 0 = v) by by_run.
  let v := eval vm_compute in (snd firstLoginUnderWay !! 1) in
  assert (H1 : snd firstLoginUnderWay !! 1 = v) by by_run.
  match type of H0 with _ = Some ?t0 =>
  match type of H1 with _ = Some ?t1 =>
    destruct (@logins_are_exclusive scriptedOutside plainURLPath twoLogins
                (fst firstLoginUnderWay) (snd firstLoginUnderWay) 0
                (postLogin "x@y.z" "secret") (loggedOutWorld happyScript) t0
                Hreach eq_refl H0) as (_ & Hcall & Hexcl);
    assert (Hw : holds t0 = Writing) by (eapply Hcall; reflexivity);
    destruct (Hexcl Hw 1 t1 ltac:(discriminate) H1) as [Hfree Hwait];
    exists t0, t1;
    exact (conj H0 (conj H1 (conj Hw (conj Hfree (Hwait _ _ eq_refl)))))
  end end.
Defined.

(** ** More runs on the scripted outside world *)

Lemma download_unparsable_url_panics_witness :
  @downloadHandler scriptedOutside plainURLPath (postDownload "%zz" "a@b.com")
    (servingWorld happyScript)
  = (Panic "invalid memory address or nil pointer dereference",
     logged [ERLock; ERUnlock] (servingWorld happyScript)).
Proof.
  refine (@download_unparsable_url_panics scriptedOutside plainURLPath
            (servingWorld happyScript) "%zz" "a@b.com" _ _ eq_refl eq_refl);
    discriminate.
Defined.

Lemma download_after_login_witness :
  let w1 := snd (@loginHandler scriptedOutside (postLogin "x@y.z" "secret")
                   (loggedOutWorld happyScript)) in
  @downloadHandler scriptedOutside plainURLPath (postDownload sampleURL "other@c.d") w1
  = (Val (downloadStarted "https://storage.stokbro.net/x%40y.z/red-fox.jpg"),
     logged [ERLock; ERUnlock; EGo sampleURL "x%40y.z/red-fox.jpg"] w1).
Proof.
  intros w1.
  assert (Hok : fst (@loginHandler scriptedOutside (postLogin "x@y.z" "secret")
                       (loggedOutWorld happyScript)) = Val loginSuccess) by by_run.
  refine (@download_after_login scriptedOutside plainURLPath
            (loggedOutWorld happyScript) "x@y.z" "secret" sampleURL "other@c.d"
            "/free-photo/red-fox_12345.htm" Hok _ _ eq_refl); discriminate.
Defined.

Lemma pipeline_uploads_nothing_witness :
  let w := servingWorld happyScript in
  let w' := snd (processDownload sampleURL "a%40b.com/red-fox.jpg" w) in
  exists evs : list event,
    trace w' = trace w ++ evs
    /\ Forall (fun p => p = sampleURL) (collect openedFile evs)
    /\ collect putObject evs = []
    /\ (forall p, removals p evs = 0)
    /\ files w' = files (snd (runDownload sampleURL w)).
Proof.
  intros w.
  assert (Hdl : fst (runDownload sampleURL w)
                = Val "/root/freepik_downloads/red-fox.jpg") by by_run.
  apply (@pipeline_uploads_nothing scriptedOutside w sampleURL "a%40b.com/red-fox.jpg").
  - reflexivity.
  - intros path Hp. rewrite Hdl in Hp. injection Hp as <-.
    apply String.eqb_neq. by_run.
Defined.

(** The staged file of that run, and the one file the upload asked for. *)
Example pipeline_opens_the_url :
  let w' := snd (processDownload sampleURL "a%40b.com/red-fox.jpg"
                   (servingWorld happyScript)) in
  collect openedFile (trace w') = [sampleURL]
  /\ collect putObject (trace w') = []
  /\ files w' !! "/root/freepik_downloads/red-fox.jpg" = Some "JPEGDATA".
Proof. vm_compute. repeat split. Qed.

Lemma missing_button_aborts_witness :
  let w := servingWorld ambiguousScript in
  fst (runDownload sampleURL w) = Raise "download button not found"
  /\ collect captureOf (trace (snd (processDownload sampleURL "k" w))) = []
  /\ List.filter isUploadCall (trace (snd (processDownload sampleURL "k" w))) = []
  /\ files (snd (processDownload sampleURL "k" w)) = files w.
Proof.
  intros w.
  apply (@missing_button_aborts scriptedOutside w sampleURL "k" eq_refl).
  vm_compute. tauto.
Defined.

Lemma uploads_what_was_saved_witness :
  let w := servingWorld happyScript in
  let tr := trace (snd (TempVariant.processDownload sampleURL (clearTrace w))) in
  "freepik-downloads" = getEnv (environ w) "R2_BUCKET_NAME" "freepik-downloads"
  /\ exists (date name tmpPath : string),
       "2026-01-02/red-fox.jpg" = date +:+ "/" +:+ name
       /\ In (Some date) (map timestampOf tr)
       /\ In (Some name) (map suggestedName tr)
       /\ In (Some (Done tmpPath)) (map tempCreated tr)
       /\ In (Some (tmpPath, Done "JPEGDATA")) (map savedAs tr).
Proof.
  intros w.
  apply (@TempVariantPipeline.uploads_what_was_saved scriptedOutside w sampleURL
           "freepik-downloads" "2026-01-02/red-fox.jpg" "JPEGDATA").
  vm_compute. tauto.
Defined.


(** The restarted process does serve logged in. *)
Example restart_is_logged_in :
  let '(r, w') := main restartedAfterLogin in
  r = Val tt /\ isLoggedIn w' = true
  /\ In (EStat "/root/freepik_storage_state.json" true) (trace w').
Proof. vm_compute. repeat split. tauto. Qed.

Lemma startup_needs_credentials_witness :
  @TempVariantStartup.main scriptedOutside (bootWorld happyScript ∅)
  = (Exit ("Failed to initialize R2 client: "
           +:+ "R2 credentials not set. Set R2_ACCOUNT_ID, R2_ACCESS_KEY_ID, and R2_SECRET_ACCESS_KEY"),
     bootWorld happyScript ∅).
Proof.
  apply (@StartupFacts.startup_needs_credentials scriptedOutside
           (bootWorld happyScript ∅)).
  left. reflexivity.
Defined.

Lemma keys_are_per_user_witness :
  "a%40b.com/red-fox.jpg" <> "c%40d.e/red-fox.jpg"
  /\ exists name name',
       "a%40b.com/red-fox.jpg" = QueryEscape "a@b.com" +:+ "/" +:+ name
       /\ "c%40d.e/red-fox.jpg" = QueryEscape "c@d.e" +:+ "/" +:+ name'
       /\ QueryUnescape (QueryEscape "a@b.com") = "a@b.com".
Proof.
  refine (@keys_are_per_user plainURLPath (fun _ => "") (fun _ => "")
            sampleURL sampleURL "a@b.com" "c@d.e"
            "https://storage.stokbro.net/a%40b.com/red-fox.jpg"
            "https://storage.stokbro.net/c%40d.e/red-fox.jpg"
            "a%40b.com/red-fox.jpg" "c%40d.e/red-fox.jpg" _ eq_refl eq_refl).
  discriminate.
Defined.


(** There the first login goes on while the second one waits. *)
Example second_login_waits :
  perform 1 firstLoginUnderWay = firstLoginUnderWay
  /\ option_map (fun t => length (past t)) (snd firstLoginUnderWay !! 0) = Some 4
  /\ option_map (fun t => length (past t))
       (snd (perform 0 firstLoginUnderWay) !! 0) = Some 5.
Proof. split; [by_run|split; by_run]. Qed.

Lemma leaves_no_file_witness :
  let w := servingWorldOn happyScript {[ "/root/notes.txt" := "n" ]} in
  files (snd (TempVariant.processDownload sampleURL w)) !! "/root/notes.txt"
  = files w !! "/root/notes.txt".
Proof.
  intros w.
  apply (@TempVariantDisk.leaves_no_file scriptedOutside w sampleURL "/root/notes.txt").
  assert (E : files (snd (TempVariant.processDownload sampleURL w)) !! "/root/notes.txt"
              = Some "n") by by_run.
  rewrite E. eauto.
Defined.

(** A page left open, a call on a closed page and a second page are told
    apart from a page opened, used and closed. *)
Example pageProtocol_tells :
  pageProtocol None [Ev (NewPage 2) (Done 3); Ev (Title 3) (Done "t");
                     Ev (Page_Close 3) tt] = true
  /\ pageProtocol None [Ev (NewPage 2) (Done 3); Ev (Title 3) (Done "t")] = false
  /\ pageProtocol None [Ev (NewPage 2) (Done 3); Ev (Page_Close 3) tt;
                        Ev (Title 3) (Done "t")] = false
  /\ pageProtocol None [Ev (NewPage 2) (Done 3); Ev (NewPage 2) (Done 4);
                        Ev (Page_Close 3) tt] = false.
Proof. repeat split. Qed.
